(** * Godot MCP server: command execution and result correlation

    A shallow embedding of the TypeScript sources
      - [utils/godot-utils]   ([findGodotPath], [runGodotCommand], [isGodotProject]),
      - [godot/operations]    ([initOperationsScript], [runGodotOperation]),
      - the run/stop/peek part ([initGodot], [runProject], [stopProject],
        [getDebugOutput]),
    followed by the properties of the natural-language specification.

    Conventions.  JavaScript strings are Rocq strings (byte sequences, text in
    UTF-8).  Module-level [let] variables and the operating system are explicit
    state; an [async] function is a computation in a state-and-exception monad
    and runs to completion before the next call starts.  For [runProject]
    there is, besides, a model statement by statement, with the points at
    which the call is suspended and calls in progress at once taking turns
    (module [Steps]).  Node and ECMAScript builtins whose code is
    not part of the repository ([child_process.exec], [path.join],
    [JSON.parse], [JSON.stringify]) are the fields of the class [Host]. *)

From Stdlib Require Import ZArith Ascii String.
From stdpp Require Import base strings gmap list pretty.

Open Scope string_scope.
Open Scope list_scope.

(** ** JavaScript strings *)

Module Str.

Definition dquote : ascii := "034"%char.
Definition lbrace : ascii := "{"%char.
Definition rbrace : ascii := "}"%char.

(** [quoted s] is [s] between two double quotes. *)
Definition quoted (s : string) : string :=
  String dquote (s +:+ String dquote "").

(** A string is truthy exactly when it is not empty. *)
Definition truthy (s : string) : bool :=
  match s with "" => false | String _ _ => true end.

(** [undefined], [null] and the empty string are the falsy values a
    [string | null] or an optional string property can take. *)
Definition truthy_opt (o : option string) : bool :=
  match o with None => false | Some s => truthy s end.

(** [a || ''] for an optional string [a]. *)
Definition or_empty (o : option string) : string :=
  match o with
  | Some s => if truthy s then s else ""
  | None => ""
  end.

(** [occurs c s]: the character [c] occurs in [s]. *)
Fixpoint occurs (c : ascii) (s : string) : bool :=
  match s with
  | "" => false
  | String d r => if Ascii.eqb d c then true else occurs c r
  end.

(** [Array.prototype.join] with a separator. *)
Fixpoint join (sep : string) (l : list string) : string :=
  match l with
  | [] => ""
  | [x] => x
  | x :: r => x +:+ sep +:+ join sep r
  end.

(** The white space and line terminators of ECMAScript that
    [String.prototype.trim] strips, as UTF-8 byte sequences: TAB, LF, VT, FF,
    CR, SPACE, then NBSP, the [Zs] category, LS, PS and the BOM. *)
Definition ws1 (c : ascii) : bool :=
  let n := nat_of_ascii c in
  (Nat.leb 9 n && Nat.leb n 13) || Nat.eqb n 32.

Definition ws_seqs : list (list nat) :=
  [ [194; 160]; [225; 154; 128]; [226; 128; 168]; [226; 128; 169];
    [226; 128; 175]; [226; 129; 159]; [227; 128; 128]; [239; 187; 191] ]
  ++ map (fun k => [226; 128; 128 + k]) (seq 0 11).

Fixpoint strip_seq (q : list nat) (s : string) : option string :=
  match q with
  | [] => Some s
  | n :: q' =>
      match s with
      | String c r => if Nat.eqb (nat_of_ascii c) n then strip_seq q' r else None
      | "" => None
      end
  end.

Fixpoint strip_any (qs : list (list nat)) (s : string) : option string :=
  match qs with
  | [] => None
  | q :: qs' =>
      match strip_seq q s with
      | Some r => Some r
      | None => strip_any qs' s
      end
  end.

(** Strip one white-space character from the front, if there is one. *)
Definition strip_ws (qs : list (list nat)) (s : string) : option string :=
  match s with
  | String c r => if ws1 c then Some r else strip_any qs s
  | "" => None
  end.

Fixpoint trim_start_with (qs : list (list nat)) (fuel : nat) (s : string) : string :=
  match fuel with
  | 0 => s
  | S fuel' =>
      match strip_ws qs s with
      | Some r => trim_start_with qs fuel' r
      | None => s
      end
  end.

Definition trimStart (s : string) : string :=
  trim_start_with ws_seqs (String.length s) s.

Definition trimEnd (s : string) : string :=
  String.rev
    (trim_start_with (map (@rev nat) ws_seqs) (String.length s) (String.rev s)).

Definition trim (s : string) : string := trimEnd (trimStart s).

End Str.

(** ** The regular expression [/{[\s\S]*}/]

    [String.prototype.match] with a regular expression without the [g] flag
    returns the leftmost match.  At a start position the pattern needs an
    opening brace; [[\s\S]*] then takes every remaining character and gives
    characters back, one at a time, until a closing brace follows. *)

Module Regex.

(** [greedy_close s]: the longest prefix of [s] that ends in a closing
    brace, which is what [[\s\S]*}] matches at the start of [s]. *)
Fixpoint greedy_close (s : string) : option string :=
  match s with
  | "" => None
  | String c r =>
      match greedy_close r with
      | Some t => Some (String c t)
      | None => if Ascii.eqb c Str.rbrace then Some (String c "") else None
      end
  end.

(** The match anchored at the start of [s]. *)
Definition match_here (s : string) : option string :=
  match s with
  | String c r =>
      if Ascii.eqb c Str.lbrace
      then option_map (String c) (greedy_close r)
      else None
  | "" => None
  end.

(** [stdout.match(/{[\s\S]*}/)]: the first start position with a match;
    [jsonMatch[0]] is the matched text. *)
Fixpoint brace_match (s : string) : option string :=
  match match_here s with
  | Some m => Some m
  | None =>
      match s with
      | String _ r => brace_match r
      | "" => None
      end
  end.

End Regex.

(** ** JSON values and plain objects *)

#[warnings="-register-all"]
Inductive JSValue : Type :=
| JNull
| JBool (b : bool)
| JNumber (literal : string)
| JString (s : string)
| JArray (items : list JSValue)
| JObject (props : list (string * JSValue)).

(** A number is kept as the text of its literal: nothing below computes with
    numbers.  The own enumerable string-keyed properties of a plain object are
    an association list with pairwise distinct keys, in the order in which
    the engine enumerates them ([OrdinaryOwnPropertyKeys]): the keys that are
    array indices first, in ascending numeric order, then the other keys in
    the order in which they were created. *)

Module Obj.

Definition t : Type := list (string * JSValue).

Fixpoint get (k : string) (o : t) : option JSValue :=
  match o with
  | [] => None
  | (k', v) :: r => if String.eqb k k' then Some v else get k r
  end.

(** The value of a string of decimal digits. *)
Fixpoint decimal (s : string) (acc : N) : option N :=
  match s with
  | "" => Some acc
  | String c r =>
      let n := nat_of_ascii c in
      if Nat.leb 48 n && Nat.leb n 57
      then decimal r (acc * 10 + N.of_nat (n - 48))
      else None
  end.

(** A property key is an array index when it is the canonical numeral of an
    integer from 0 to 2^32 - 2: decimal digits, no leading zero. *)
Definition array_index (k : string) : option N :=
  match k with
  | "" => None
  | String c r =>
      if Ascii.eqb c "0"%char && Str.truthy r then None
      else
        match decimal k 0 with
        | Some n => if (n <? 4294967295)%N then Some n else None
        | None => None
        end
  end.

(** The value of a key that is present changes in place. *)
Fixpoint replace (k : string) (v : JSValue) (o : t) : t :=
  match o with
  | [] => []
  | (k', v') :: r =>
      if String.eqb k k' then (k', v) :: r else (k', v') :: replace k v r
  end.

(** A new array index goes before the first key that is no smaller array
    index. *)
Fixpoint insert_index (n : N) (k : string) (v : JSValue) (o : t) : t :=
  match o with
  | [] => [(k, v)]
  | (k', v') :: r =>
      match array_index k' with
      | Some m =>
          if (m <? n)%N then (k', v') :: insert_index n k v r
          else (k, v) :: o
      | None => (k, v) :: o
      end
  end.

(** Defining a data property: a key already present keeps its place and
    takes the new value; a new array index goes among the array indices in
    front, any other new key goes last. *)
Definition set (k : string) (v : JSValue) (o : t) : t :=
  match get k o with
  | Some _ => replace k v o
  | None =>
      match array_index k with
      | Some n => insert_index n k v o
      | None => o ++ [(k, v)]
      end
  end.

(** [{...target, ...source}]: the properties of [source] are defined on
    the object under construction, in order. *)
Definition spread (target source : t) : t :=
  fold_left (fun acc kv => set (fst kv) (snd kv) acc) source target.

Definition keys (o : t) : list string := map fst o.

End Obj.

(** ** A reference implementation of [JSON.parse] and [JSON.stringify]

    The functions of the source take these two builtins from [Host]; the
    definitions here follow the JSON grammar (ECMA-404) and serve to run the
    model on concrete texts. *)

Module Json.

Definition is_ws (c : ascii) : bool :=
  let n := nat_of_ascii c in
  Nat.eqb n 32 || Nat.eqb n 9 || Nat.eqb n 10 || Nat.eqb n 13.

Fixpoint skip_ws (s : string) : string :=
  match s with
  | String c r => if is_ws c then skip_ws r else s
  | "" => ""
  end.

Definition is_digit (c : ascii) : bool :=
  let n := nat_of_ascii c in Nat.leb 48 n && Nat.leb n 57.

Definition hex_val (c : ascii) : option nat :=
  let n := nat_of_ascii c in
  if Nat.leb 48 n && Nat.leb n 57 then Some (n - 48)
  else if Nat.leb 65 n && Nat.leb n 70 then Some (n - 55)
  else if Nat.leb 97 n && Nat.leb n 102 then Some (n - 87)
  else None.

(** UTF-8 bytes of a code unit given by a [\uXXXX] escape. *)
Definition utf8 (n : nat) (tail : string) : string :=
  if Nat.ltb n 128 then String (ascii_of_nat n) tail
  else if Nat.ltb n 2048 then
    String (ascii_of_nat (192 + n / 64))
      (String (ascii_of_nat (128 + n mod 64)) tail)
  else
    String (ascii_of_nat (224 + n / 4096))
      (String (ascii_of_nat (128 + (n / 64) mod 64))
        (String (ascii_of_nat (128 + n mod 64)) tail)).

Definition simple_escape (e : ascii) : option ascii :=
  if Ascii.eqb e Str.dquote then Some Str.dquote
  else if Ascii.eqb e "\"%char then Some "\"%char
  else if Ascii.eqb e "/"%char then Some "/"%char
  else if Ascii.eqb e "b"%char then Some "008"%char
  else if Ascii.eqb e "f"%char then Some "012"%char
  else if Ascii.eqb e "n"%char then Some "010"%char
  else if Ascii.eqb e "r"%char then Some "013"%char
  else if Ascii.eqb e "t"%char then Some "009"%char
  else None.

(** The characters of a string literal after its opening quote: the decoded
    string and the text after the closing quote. *)
Fixpoint string_body (s : string) : option (string * string) :=
  match s with
  | "" => None
  | String c r =>
      if Ascii.eqb c Str.dquote then Some ("", r)
      else if Ascii.eqb c "\"%char then
        match r with
        | String e r1 =>
            if Ascii.eqb e "u"%char then
              match r1 with
              | String h1 (String h2 (String h3 (String h4 r2))) =>
                  match hex_val h1, hex_val h2, hex_val h3, hex_val h4 with
                  | Some a, Some b, Some c', Some d =>
                      match string_body r2 with
                      | Some (t, rest) =>
                          Some (utf8 (((a * 16 + b) * 16 + c') * 16 + d) t, rest)
                      | None => None
                      end
                  | _, _, _, _ => None
                  end
              | _ => None
              end
            else
              match simple_escape e with
              | Some x =>
                  match string_body r1 with
                  | Some (t, rest) => Some (String x t, rest)
                  | None => None
                  end
              | None => None
              end
        | "" => None
        end
      else if Nat.ltb (nat_of_ascii c) 32 then None
      else
        match string_body r with
        | Some (t, rest) => Some (String c t, rest)
        | None => None
        end
  end.

Fixpoint digits (s : string) : string * string :=
  match s with
  | String c r =>
      if is_digit c then let '(d, rest) := digits r in (String c d, rest)
      else ("", s)
  | "" => ("", "")
  end.

(** A number literal: an optional minus sign, an integer part without a
    leading zero, an optional fraction and an optional exponent. *)
Definition number (s : string) : option (string * string) :=
  let '(sign, s1) :=
    match s with
    | String c r => if Ascii.eqb c "-"%char then ("-", r) else ("", s)
    | "" => ("", s)
    end in
  let '(int, s2) := digits s1 in
  let int_ok :=
    match int with
    | "" => false
    | String c "" => true
    | String c _ => negb (Ascii.eqb c "0"%char)
    end in
  if negb int_ok then None else
  let frac :=
    match s2 with
    | String c r =>
        if Ascii.eqb c "."%char then
          let '(d, rest) := digits r in
          if Str.truthy d then Some ("." +:+ d, rest) else None
        else Some ("", s2)
    | "" => Some ("", s2)
    end in
  match frac with
  | None => None
  | Some (f, s3) =>
      let exp :=
        match s3 with
        | String c r =>
            if Ascii.eqb c "e"%char || Ascii.eqb c "E"%char then
              let '(sg, r1) :=
                match r with
                | String g r' =>
                    if Ascii.eqb g "+"%char || Ascii.eqb g "-"%char
                    then (String g "", r') else ("", r)
                | "" => ("", r)
                end in
              let '(d, rest) := digits r1 in
              if Str.truthy d then Some (String c sg +:+ d, rest) else None
            else Some ("", s3)
        | "" => Some ("", s3)
        end in
      match exp with
      | None => None
      | Some (e, s4) => Some (sign +:+ int +:+ f +:+ e, s4)
      end
  end.

Fixpoint strip_prefix (p s : string) : option string :=
  match p with
  | "" => Some s
  | String a p' =>
      match s with
      | String b s' => if Ascii.eqb a b then strip_prefix p' s' else None
      | "" => None
      end
  end.

Fixpoint value (fuel : nat) (s : string) : option (JSValue * string) :=
  match fuel with
  | 0 => None
  | S fuel' =>
      match skip_ws s with
      | "" => None
      | String c r as s0 =>
          if Ascii.eqb c Str.lbrace then
            match skip_ws r with
            | String c1 r1 as r0 =>
                if Ascii.eqb c1 Str.rbrace then Some (JObject [], r1)
                else members fuel' r0 []
            | "" => None
            end
          else if Ascii.eqb c "["%char then
            match skip_ws r with
            | String c1 r1 as r0 =>
                if Ascii.eqb c1 "]"%char then Some (JArray [], r1)
                else elements fuel' r0 []
            | "" => None
            end
          else if Ascii.eqb c Str.dquote then
            match string_body r with
            | Some (t, rest) => Some (JString t, rest)
            | None => None
            end
          else
            match strip_prefix "true" s0, strip_prefix "false" s0,
                  strip_prefix "null" s0 with
            | Some rest, _, _ => Some (JBool true, rest)
            | _, Some rest, _ => Some (JBool false, rest)
            | _, _, Some rest => Some (JNull, rest)
            | None, None, None =>
                match number s0 with
                | Some (lit, rest) => Some (JNumber lit, rest)
                | None => None
                end
            end
      end
  end
with members (fuel : nat) (s : string) (acc : Obj.t) : option (JSValue * string) :=
  match fuel with
  | 0 => None
  | S fuel' =>
      match skip_ws s with
      | String c r =>
          if Ascii.eqb c Str.dquote then
            match string_body r with
            | Some (k, r1) =>
                match skip_ws r1 with
                | String c2 r2 =>
                    if Ascii.eqb c2 ":"%char then
                      match value fuel' r2 with
                      | Some (v, r3) =>
                          match skip_ws r3 with
                          | String c4 r4 =>
                              if Ascii.eqb c4 ","%char
                              then members fuel' r4 (Obj.set k v acc)
                              else if Ascii.eqb c4 Str.rbrace
                              then Some (JObject (Obj.set k v acc), r4)
                              else None
                          | "" => None
                          end
                      | None => None
                      end
                    else None
                | "" => None
                end
            | None => None
            end
          else None
      | "" => None
      end
  end
with elements (fuel : nat) (s : string) (acc : list JSValue) : option (JSValue * string) :=
  match fuel with
  | 0 => None
  | S fuel' =>
      match value fuel' s with
      | Some (v, r1) =>
          match skip_ws r1 with
          | String c2 r2 =>
              if Ascii.eqb c2 ","%char then elements fuel' r2 (acc ++ [v])
              else if Ascii.eqb c2 "]"%char then Some (JArray (acc ++ [v]), r2)
              else None
          | "" => None
          end
      | None => None
      end
  end.

(** [JSON.parse text]: [None] stands for the [SyntaxError] it throws. *)
Definition parse (text : string) : option JSValue :=
  match value (2 * String.length text + 2) text with
  | Some (v, rest) => if Str.truthy (skip_ws rest) then None else Some v
  | None => None
  end.

Definition hex_digit (n : nat) : ascii :=
  ascii_of_nat (if Nat.ltb n 10 then 48 + n else 87 + n).

Definition escape_char (c : ascii) (tail : string) : string :=
  let n := nat_of_ascii c in
  if Ascii.eqb c Str.dquote then String "\"%char (String Str.dquote tail)
  else if Ascii.eqb c "\"%char then String "\"%char (String "\"%char tail)
  else if Nat.eqb n 8 then "\b" +:+ tail
  else if Nat.eqb n 12 then "\f" +:+ tail
  else if Nat.eqb n 10 then "\n" +:+ tail
  else if Nat.eqb n 13 then "\r" +:+ tail
  else if Nat.eqb n 9 then "\t" +:+ tail
  else if Nat.ltb n 32 then
    "\u00" +:+ String (hex_digit (n / 16)) (String (hex_digit (n mod 16)) tail)
  else String c tail.

Fixpoint escape (s : string) : string :=
  match s with
  | "" => ""
  | String c r => escape_char c (escape r)
  end.

Definition quote (s : string) : string := Str.quoted (escape s).

(** [JSON.stringify v] without indentation. *)
Fixpoint stringify (v : JSValue) : string :=
  match v with
  | JNull => "null"
  | JBool true => "true"
  | JBool false => "false"
  | JNumber lit => lit
  | JString s => quote s
  | JArray items => "[" +:+ Str.join "," (map stringify items) +:+ "]"
  | JObject props =>
      "{" +:+
      Str.join ","
        (map (fun kv => match kv with
                        | (k, x) => quote k +:+ ":" +:+ stringify x
                        end) props)
      +:+ "}"
  end.

End Json.

(** ** Errors, the operating system and the state of the server process *)

(** What a rejected [execAsync] promise carries: the error thrown by
    [child_process.exec], with its message, the exit code (absent when no
    process ran) and the output captured until then. *)
Record ExecFailure : Type := mkExecFailure {
  failure_message : string;
  exit_code : option Z;
  failure_stdout : option string;
  failure_stderr : option string
}.

Record CommandResult : Type := mkCommandResult {
  stdout : string;
  stderr : string
}.

Inductive JsError : Type :=
| Error (message : string)
| SyntaxError (message : string)
| SystemError (code : string) (message : string)
| ExecError (e : ExecFailure).

(** [`${error}`] *)
Definition error_text (e : JsError) : string :=
  match e with
  | Error m => "Error: " +:+ m
  | SyntaxError m => "SyntaxError: " +:+ m
  | SystemError _ m => "Error: " +:+ m
  | ExecError x => "Error: " +:+ failure_message x
  end.

(** [error.stdout] and [error.stderr] of a caught value. *)
Definition error_stdout (e : JsError) : option string :=
  match e with ExecError x => failure_stdout x | _ => None end.

Definition error_stderr (e : JsError) : option string :=
  match e with ExecError x => failure_stderr x | _ => None end.

(** The codes of the errors with which the system refuses to open a file
    for writing. *)
Inductive Errno : Type :=
| EACCES | EPERM | EISDIR | ENOTDIR | ENOENT | EROFS | EBUSY | EMFILE
| ENAMETOOLONG | ELOOP.

(** The paths at which the system refuses a write or a removal.  [refusal p]
    is the code with which creating or writing the file at [p] fails, if it
    does: [EACCES] or [EPERM] for a missing permission, [EISDIR] when [p] is
    a directory, [ENOTDIR] when [p] lies below a regular file, [ENOENT] when
    it lies below a directory that does not exist, [EROFS] on a read-only
    volume, [EBUSY] for a lock held by another process, and so on.  The set
    may be infinite: it is given by its characteristic function. *)
Record Refusals : Type := mkRefusals { refusal : string -> option Errno }.

#[global] Instance refusals_elem_of : ElemOf string Refusals :=
  fun p r => is_Some (refusal r p).

#[global] Instance refusals_elem_of_dec : RelDecision (∈@{Refusals}) :=
  fun p r => is_Some_dec (refusal r p).

#[global] Instance refusals_empty : Empty Refusals :=
  mkRefusals (fun _ => None).

#[global] Instance refusals_singleton : Singleton string Refusals :=
  fun p => mkRefusals (fun q => if String.eqb q p then Some EACCES else None).

#[global] Instance refusals_union : Union Refusals :=
  fun a b => mkRefusals (fun q =>
    match refusal a q with Some code => Some code | None => refusal b q end).

(** The part of the machine outside the server process.  [fs] maps every
    existing path to its content; [denied] holds the paths at which the system
    refuses a write or a removal. *)
Record World : Type := mkWorld {
  fs : gmap string string;
  denied : Refusals;
  env_GODOT_PATH : option string;
  os_platform : string;
  os_tmpdir : string;
  date_now : Z
}.

(** A child started by [spawn]: the [ChildProcess] object with the [output]
    variable that the two [data] listeners of [runProject] close over. *)
Record Child : Type := mkChild {
  child_file : string;
  child_args : list string;
  child_killed : bool;
  child_output : string
}.

Inductive Pipe : Type := Stdout | Stderr.

Inductive LogArg : Type :=
| LogError (e : JsError)
| LogString (s : string).

(** The module-level variables: [gdScriptPath] of the operations module,
    [godotPath] and [godotProcess] of the commands module; the children
    spawned so far ([godotProcess] refers to one by its index) and the lines
    written with [console.error]. *)
Record Js : Type := mkJs {
  gdScriptPath : option string;
  godotPath : option string;
  godotProcess : option nat;
  children : list Child;
  console : list (string * LogArg)
}.

Record St : Type := mkSt { js : Js; world : World }.

Definition with_fs (f : gmap string string) (w : World) : World :=
  mkWorld f (denied w) (env_GODOT_PATH w) (os_platform w) (os_tmpdir w) (date_now w).

Definition with_gdScriptPath (p : option string) (j : Js) : Js :=
  mkJs p (godotPath j) (godotProcess j) (children j) (console j).

Definition with_godotPath (p : option string) (j : Js) : Js :=
  mkJs (gdScriptPath j) p (godotProcess j) (children j) (console j).

Definition with_godotProcess (p : option nat) (j : Js) : Js :=
  mkJs (gdScriptPath j) (godotPath j) p (children j) (console j).

Definition with_children (c : list Child) (j : Js) : Js :=
  mkJs (gdScriptPath j) (godotPath j) (godotProcess j) c (console j).

Definition with_console (c : list (string * LogArg)) (j : Js) : Js :=
  mkJs (gdScriptPath j) (godotPath j) (godotProcess j) (children j) c.

(** The builtins the source calls.  [execAsync command cwd] runs a shell
    command to completion: it may change the world and resolves with the two
    captured streams or rejects.  [path_join] never returns the empty string
    ([path.join] answers ["."] instead).  [gdScriptContent] is the text of the
    generated GDScript program, a constant of [initOperationsScript]. *)
Class Host : Type := mkHost {
  execAsync : string -> option string -> World -> (ExecFailure + CommandResult) * World;
  path_join : string -> string -> string;
  path_join_truthy : forall a b, Str.truthy (path_join a b) = true;
  JSON_parse : string -> option JSValue;
  JSON_stringify : JSValue -> string;
  gdScriptContent : string
}.

(** ** Computations: state and exceptions *)

Inductive Outcome (A : Type) : Type :=
| Return (a : A)
| Throw (e : JsError).

Arguments Return {A} a.
Arguments Throw {A} e.

Definition M (A : Type) : Type := St -> Outcome A * St.

Definition ret {A} (a : A) : M A := fun s => (Return a, s).

Definition throw {A} (e : JsError) : M A := fun s => (Throw e, s).

Definition bind {A B} (m : M A) (k : A -> M B) : M B :=
  fun s =>
    match m s with
    | (Return a, s') => k a s'
    | (Throw e, s') => (Throw e, s')
    end.

(** [try { body } catch (error) { handler }]: what [body] did to the state
    before it threw stays done. *)
Definition try_catch {A} (body : M A) (handler : JsError -> M A) : M A :=
  fun s =>
    match body s with
    | (Return a, s') => (Return a, s')
    | (Throw e, s') => handler e s'
    end.

Definition gets {A} (f : St -> A) : M A := fun s => (Return (f s), s).

Definition modify_js (f : Js -> Js) : M unit :=
  fun s => (Return tt, mkSt (f (js s)) (world s)).

Notation "x <- m ;; k" := (bind m (fun x => k))
  (at level 100, m at level 99, right associativity, only parsing).
Notation "m ;;; k" := (bind m (fun _ => k))
  (at level 100, right associativity, only parsing).

(** ** [fs], [os], [console] and [child_process] *)

Module Node.

(** The errors of the file system calls, with the messages Node gives them:
    the code, its description, the system call and the path. *)
Definition errno_name (code : Errno) : string :=
  match code with
  | EACCES => "EACCES" | EPERM => "EPERM" | EISDIR => "EISDIR"
  | ENOTDIR => "ENOTDIR" | ENOENT => "ENOENT" | EROFS => "EROFS"
  | EBUSY => "EBUSY" | EMFILE => "EMFILE" | ENAMETOOLONG => "ENAMETOOLONG"
  | ELOOP => "ELOOP"
  end.

Definition errno_text (code : Errno) : string :=
  match code with
  | EACCES => "permission denied"
  | EPERM => "operation not permitted"
  | EISDIR => "illegal operation on a directory"
  | ENOTDIR => "not a directory"
  | ENOENT => "no such file or directory"
  | EROFS => "read-only file system"
  | EBUSY => "resource busy or locked"
  | EMFILE => "too many open files"
  | ENAMETOOLONG => "name too long"
  | ELOOP => "too many symbolic links encountered"
  end.

Definition open_error (code : Errno) (p : string) : JsError :=
  SystemError (errno_name code)
    (errno_name code +:+ ": " +:+ errno_text code +:+ ", open '" +:+ p +:+ "'").

Definition EPERM_unlink (p : string) : JsError :=
  SystemError "EPERM" ("EPERM: operation not permitted, unlink '" +:+ p +:+ "'").

Definition ENOENT_unlink (p : string) : JsError :=
  SystemError "ENOENT" ("ENOENT: no such file or directory, unlink '" +:+ p +:+ "'").

Definition existsSync (p : string) : M bool :=
  gets (fun s => bool_decide (is_Some (fs (world s) !! p))).

(** [fs.writeFileSync]: the file is opened for writing, created if it does
    not exist, and takes the data, unless the system refuses at this path. *)
Definition writeFileSync (p data : string) : M unit :=
  fun s =>
    match refusal (denied (world s)) p with
    | Some code => (Throw (open_error code p), s)
    | None =>
        (Return tt, mkSt (js s) (with_fs (<[p := data]> (fs (world s))) (world s)))
    end.

Definition unlinkSync (p : string) : M unit :=
  fun s =>
    if bool_decide (is_Some (fs (world s) !! p)) then
      if bool_decide (p ∈ denied (world s))
      then (Throw (EPERM_unlink p), s)
      else (Return tt, mkSt (js s) (with_fs (delete p (fs (world s))) (world s)))
    else (Throw (ENOENT_unlink p), s).

Definition console_error (label : string) (arg : LogArg) : M unit :=
  modify_js (fun j => with_console (console j ++ [(label, arg)]) j).

(** The promisified [exec]. *)
Definition exec `{Host} (command : string) (cwd : option string) : M CommandResult :=
  fun s =>
    match execAsync command cwd (world s) with
    | (inr r, w) => (Return r, mkSt (js s) w)
    | (inl x, w) => (Throw (ExecError x), mkSt (js s) w)
    end.

(** [spawn(file, args, ...)] returns the new [ChildProcess]. *)
Definition spawn (file : string) (args : list string) : M nat :=
  fun s =>
    let j := js s in
    (Return (length (children j)),
     mkSt (with_children (children j ++ [mkChild file args false ""]) j) (world s)).

(** [child.kill()] sends the termination signal. *)
Definition kill (pid : nat) : M unit :=
  modify_js (fun j =>
    with_children
      (alter (fun c => mkChild (child_file c) (child_args c) true (child_output c))
             pid (children j)) j).

(** A [data] event on the stdout or on the stderr pipe of child [pid]: the
    two listeners run [output += data.toString()] on the same variable. *)
Definition on_data (pid : nat) (pipe : Pipe) (data : string) (s : St) : St :=
  mkSt
    (with_children
       (alter (fun c => mkChild (child_file c) (child_args c) (child_killed c)
                          (child_output c +:+ data))
              pid (children (js s))) (js s))
    (world s).

End Node.

(** ** [utils/godot-utils] *)

Module GodotUtils.

(** Godot executable paths by platform; [None] is the [undefined] that
    indexing with any other platform name gives. *)
Definition GODOT_PATHS (platform : string) : option (list string) :=
  if String.eqb platform "darwin" then
    Some [ "/Applications/Godot.app/Contents/MacOS/Godot";
           "/Applications/Godot_4.app/Contents/MacOS/Godot";
           "/Applications/Godot_4.2.app/Contents/MacOS/Godot" ]
  else if String.eqb platform "linux" then
    Some [ "/usr/bin/godot"; "/usr/local/bin/godot" ]
  else if String.eqb platform "win32" then
    Some [ "C:\Program Files\Godot\Godot.exe";
           "C:\Program Files (x86)\Godot\Godot.exe" ]
  else None.

(** The [for] loop over [potentialPaths], left at the first existing one. *)
Fixpoint first_existing (paths : list string) : M (option string) :=
  match paths with
  | [] => ret None
  | p :: rest =>
      e <- Node.existsSync p ;;
      if e then ret (Some p) else first_existing rest
  end.

(** [p && fs.existsSync(p)] *)
Definition set_and_exists (p : option string) : M bool :=
  match p with
  | Some q => if Str.truthy q then Node.existsSync q else ret false
  | None => ret false
  end.

Definition findGodotPath `{Host} : M (option string) :=
  env <- gets (fun s => env_GODOT_PATH (world s)) ;;
  hit <- set_and_exists env ;;
  if hit then ret env else
  platform <- gets (fun s => os_platform (world s)) ;;
  let potentialPaths := default [] (GODOT_PATHS platform) in
  found <- first_existing potentialPaths ;;
  match found with
  | Some p => ret (Some p)
  | None =>
      try_catch
        (if negb (String.eqb platform "win32") then
           r <- Node.exec "which godot" None ;;
           let godotPath := Str.trim (stdout r) in
           ok <- set_and_exists (Some godotPath) ;;
           if ok then ret (Some godotPath) else ret None
         else ret None)
        (fun _ => ret None)
  end.

(** The template literal handed to the shell: the executable between double
    quotes, one space, the arguments joined by single spaces. *)
Definition command_line (godotPath : string) (args : list string) : string :=
  Str.quoted godotPath +:+ " " +:+ Str.join " " args.

(** The [catch] clause of [runGodotCommand]. *)
Definition recover (error : JsError) : M CommandResult :=
  if Str.truthy_opt (error_stdout error) || Str.truthy_opt (error_stderr error)
  then ret (mkCommandResult (Str.or_empty (error_stdout error))
                            (Str.or_empty (error_stderr error)))
  else throw error.

Definition runGodotCommand `{Host} (godotPath : string) (args : list string)
    (cwd : option string) : M CommandResult :=
  try_catch (Node.exec (command_line godotPath args) cwd) recover.

Definition isGodotProject `{Host} (projectPath : string) : M bool :=
  try_catch
    (let projectFile := path_join projectPath "project.godot" in
     Node.existsSync projectFile)
    (fun _ => ret false).

End GodotUtils.

(** ** [godot/operations] *)

Module Operations.

Import GodotUtils.

(** The branch of [initOperationsScript] taken while [gdScriptPath] is not
    set: the variable is assigned before the file is written. *)
Definition create_script `{Host} : M string :=
  tempDir <- gets (fun s => os_tmpdir (world s)) ;;
  let p := path_join tempDir "godot_operations.gd" in
  modify_js (with_gdScriptPath (Some p)) ;;;
  try_catch (Node.writeFileSync p gdScriptContent)
    (fun error =>
       throw (Error ("Failed to create GDScript operations file: "
                     +:+ error_text error))) ;;;
  ret p.

Definition initOperationsScript `{Host} : M string :=
  cur <- gets (fun s => gdScriptPath (js s)) ;;
  match cur with
  | Some p => if Str.truthy p then ret p else create_script
  | None => create_script
  end.

(** Lines 216 to 228 of [runGodotOperation], the result extractor: the
    [throw] for a missing match is inside the [try] block. *)
Definition parse_result `{Host} (stdout : string) : M JSValue :=
  try_catch
    (match Regex.brace_match stdout with
     | Some jsonMatch =>
         match JSON_parse jsonMatch with
         | Some result => ret result
         | None => throw (SyntaxError "JSON.parse")
         end
     | None => throw (Error ("No JSON found in output: " +:+ stdout))
     end)
    (fun _ =>
       throw (Error ("Failed to parse GDScript operation result: " +:+ stdout))).

(** [{ operation, projectPath, ...params }] *)
Definition operationData (projectPath operation : string) (params : Obj.t) : Obj.t :=
  Obj.spread
    [("operation", JString operation); ("projectPath", JString projectPath)]
    params.

Definition temp_json_path `{Host} (w : World) : string :=
  path_join (os_tmpdir w) ("godot_op_" +:+ pretty (date_now w) +:+ ".json").

(** [runGodotOperation] from the call of the runner on: run the script,
    remove the request file, report stderr, extract the result. *)
Definition run_script `{Host} (godotPath scriptPath tempJsonPath projectPath : string)
    : M JSValue :=
  r <- runGodotCommand godotPath ["--script"; scriptPath; tempJsonPath]
         (Some projectPath) ;;
  try_catch (Node.unlinkSync tempJsonPath)
    (fun e => Node.console_error "Failed to clean up temp file:" (LogError e)) ;;;
  (if Str.truthy (stderr r)
   then Node.console_error "GDScript operation error:" (LogString (stderr r))
   else ret tt) ;;;
  parse_result (stdout r).

Definition runGodotOperation `{Host} (projectPath operation : string)
    (params : Obj.t) : M JSValue :=
  godotPath <- findGodotPath ;;
  match godotPath with
  | None => throw (Error "Godot executable not found")
  | Some godotPath =>
      if negb (Str.truthy godotPath)
      then throw (Error "Godot executable not found") else
      scriptPath <- initOperationsScript ;;
      let data := operationData projectPath operation params in
      tempJsonPath <- gets (fun s => temp_json_path (world s)) ;;
      Node.writeFileSync tempJsonPath (JSON_stringify (JObject data)) ;;;
      run_script godotPath scriptPath tempJsonPath projectPath
  end.

Definition getSceneTree `{Host} (projectPath : string) : M JSValue :=
  runGodotOperation projectPath "get_scene_tree" [].

Definition createScene `{Host} (projectPath sceneName nodeType : string) : M JSValue :=
  runGodotOperation projectPath "create_scene"
    [("sceneName", JString sceneName); ("nodeType", JString nodeType)].

Definition addNode `{Host} (projectPath parentPath nodeName nodeType : string)
    : M JSValue :=
  runGodotOperation projectPath "add_node"
    [("parentPath", JString parentPath); ("nodeName", JString nodeName);
     ("nodeType", JString nodeType)].

End Operations.

(** ** Running, stopping and peeking at a project *)

Module Commands.

Import GodotUtils.

Definition resolve_godot `{Host} : M string :=
  p <- findGodotPath ;;
  modify_js (with_godotPath p) ;;;
  match p with
  | Some q =>
      if Str.truthy q then ret q
      else throw (Error "Godot executable not found. Set GODOT_PATH environment variable to your Godot executable.")
  | None =>
      throw (Error "Godot executable not found. Set GODOT_PATH environment variable to your Godot executable.")
  end.

Definition initGodot `{Host} : M string :=
  cur <- gets (fun s => godotPath (js s)) ;;
  match cur with
  | Some p => if Str.truthy p then ret p else resolve_godot
  | None => resolve_godot
  end.

Definition getGodotVersion `{Host} : M string :=
  godotPath <- initGodot ;;
  r <- runGodotCommand godotPath ["--version"] None ;;
  ret (Str.trim (stdout r)).

Definition stopProject : M string :=
  cur <- gets (fun s => godotProcess (js s)) ;;
  match cur with
  | None => ret "No Godot project is currently running"
  | Some pid =>
      Node.kill pid ;;;
      modify_js (with_godotProcess None) ;;;
      ret "Stopped running Godot project"
  end.

Definition runProject `{Host} (projectPath : string) : M string :=
  godotPath <- initGodot ;;
  ok <- isGodotProject projectPath ;;
  if negb ok then throw (Error ("Invalid Godot project path: " +:+ projectPath)) else
  cur <- gets (fun s => godotProcess (js s)) ;;
  (match cur with
   | Some _ => stopProject ;;; ret tt
   | None => ret tt
   end) ;;;
  pid <- Node.spawn godotPath ["--path"; projectPath] ;;
  modify_js (with_godotProcess (Some pid)) ;;;
  ret ("Running Godot project: " +:+ projectPath).

Definition getDebugOutput : M string :=
  cur <- gets (fun s => godotProcess (js s)) ;;
  match cur with
  | None => ret "No Godot project is currently running"
  | Some _ => ret "Debug output would be shown here"
  end.

End Commands.

(** ** [runProject], one statement at a time

    An [async] function runs without interruption up to an [await]; there
    the call is suspended, and the other calls in progress run before it is
    resumed.  Here the statements of [runProject], and of the [stopProject]
    it calls, that read or change the state are taken one by one, so that
    the order of the kill and of the spawn can be told, and so can the
    suspension between them.  [initGodot] is one step: it has no [await]
    inside once the executable path is cached, which is the case whenever a
    project runs. *)

Module Steps.

Import GodotUtils Commands.

(** Where a call of [runProject] stands:
    - [Entered]: called, nothing done yet;
    - [Resolved]: resumed from [await initGodot()];
    - [Probed]: resumed from [await isGodotProject(projectPath)];
    - [Killed]: inside [stopProject], after [godotProcess.kill()];
    - [Cleared]: after [godotProcess = null], resumed from
      [await stopProject()];
    - [Spawned]: [spawn(...)] has returned the child, not yet assigned;
    - [Finished]: returned or raised. *)
Inductive Point : Type :=
| Entered (projectPath : string)
| Resolved (godotPath projectPath : string)
| Probed (godotPath projectPath : string) (ok : bool)
| Killed (godotPath projectPath : string)
| Cleared (godotPath projectPath : string)
| Spawned (godotPath projectPath : string) (child : nat)
| Finished (result : Outcome string).

(** [spawn(godotPath, ['--path', projectPath], ...)] *)
Definition spawn_child (godotPath projectPath : string) (s : St) : Point * St :=
  match Node.spawn godotPath ["--path"; projectPath] s with
  | (Return child, s1) => (Spawned godotPath projectPath child, s1)
  | (Throw e, s1) => (Finished (Throw e), s1)
  end.

(** The next statement. *)
Definition next `{Host} (pt : Point) (s : St) : Point * St :=
  match pt with
  | Entered projectPath =>
      match initGodot s with
      | (Return godotPath, s1) => (Resolved godotPath projectPath, s1)
      | (Throw e, s1) => (Finished (Throw e), s1)
      end
  | Resolved godotPath projectPath =>
      match isGodotProject projectPath s with
      | (Return ok, s1) => (Probed godotPath projectPath ok, s1)
      | (Throw e, s1) => (Finished (Throw e), s1)
      end
  | Probed godotPath projectPath ok =>
      if negb ok
      then (Finished (Throw (Error ("Invalid Godot project path: " +:+ projectPath))), s)
      else
        match godotProcess (js s) with
        | Some pid => (Killed godotPath projectPath, snd (Node.kill pid s))
        | None => spawn_child godotPath projectPath s
        end
  | Killed godotPath projectPath =>
      (Cleared godotPath projectPath, snd (modify_js (with_godotProcess None) s))
  | Cleared godotPath projectPath => spawn_child godotPath projectPath s
  | Spawned godotPath projectPath child =>
      (Finished (Return ("Running Godot project: " +:+ projectPath)),
       snd (modify_js (with_godotProcess (Some child)) s))
  | Finished result => (Finished result, s)
  end.


(** The points at which a call waits: it has reached an [await], or its
    end. *)
Definition waits (pt : Point) : bool :=
  match pt with
  | Resolved _ _ | Probed _ _ _ | Cleared _ _ | Finished _ => true
  | Entered _ | Killed _ _ | Spawned _ _ _ => false
  end.

(** One turn of a call: its statements up to the next point at which it
    waits. *)
Fixpoint turn_with `{Host} (fuel : nat) (pt : Point) (s : St) : Point * St :=
  match fuel with
  | 0 => (pt, s)
  | S fuel' =>
      let '(pt1, s1) := next pt s in
      if waits pt1 then (pt1, s1) else turn_with fuel' pt1 s1
  end.

(** No turn has more than two statements. *)
Definition turn `{Host} (pt : Point) (s : St) : Point * St := turn_with 2 pt s.

(** Calls in progress taking turns: [schedule] names, turn after turn, the
    call that is resumed. *)
Fixpoint interleave `{Host} (schedule : list nat) (calls : list Point) (s : St)
    : list Point * St :=
  match schedule with
  | [] => (calls, s)
  | i :: rest =>
      match calls !! i with
      | Some pt =>
          let '(pt1, s1) := turn pt s in
          interleave rest (<[i := pt1]> calls) s1
      | None => interleave rest calls s
      end
  end.

End Steps.

(** ** The server as a sequence of tool invocations and pipe events *)

Inductive Event : Type :=
| RunProject (projectPath : string)
| StopProject
| GetDebugOutput
| GetGodotVersion
| Operation (projectPath operation : string) (params : Obj.t)
| Data (pid : nat) (pipe : Pipe) (chunk : string).

Definition step `{Host} (e : Event) (s : St) : St :=
  match e with
  | RunProject p => snd (Commands.runProject p s)
  | StopProject => snd (Commands.stopProject s)
  | GetDebugOutput => snd (Commands.getDebugOutput s)
  | GetGodotVersion => snd (Commands.getGodotVersion s)
  | Operation p o params => snd (Operations.runGodotOperation p o params s)
  | Data pid pipe chunk => Node.on_data pid pipe chunk s
  end.

Definition run_events `{Host} (evs : list Event) (s : St) : St :=
  fold_left (fun acc e => step e acc) evs s.

(** The server starts with its three variables unset, no child and an empty
    log. *)
Definition js_start : Js := mkJs None None None [] [].

(** The children that were spawned and not killed, by index. *)
Definition running (j : Js) : list nat :=
  List.filter (fun i => match children j !! i with
                        | Some c => negb (child_killed c)
                        | None => false
                        end)
              (seq 0 (length (children j))).

(** The handles the session holds. *)
Definition handles (j : Js) : list nat := option_list (godotProcess j).

(** ** Vocabulary of the properties *)

(** The error the [catch] clause of the extractor builds. *)
Definition parse_failure (text : string) : JsError :=
  Error ("Failed to parse GDScript operation result: " +:+ text).

Definition exists_in (w : World) (p : string) : bool :=
  bool_decide (is_Some (fs w !! p)).

(** What the locator does once the override is out of the way: the static
    list of the platform, then [which godot] except on Windows. *)
Definition static_then_which `{Host} (s : St) : Outcome (option string) * St :=
  let platform := os_platform (world s) in
  match List.find (exists_in (world s))
                  (default [] (GodotUtils.GODOT_PATHS platform)) with
  | Some q => (Return (Some q), s)
  | None =>
      if String.eqb platform "win32" then (Return None, s)
      else
        match execAsync "which godot" None (world s) with
        | (inr r, w) =>
            let g := Str.trim (stdout r) in
            (Return (if Str.truthy g && exists_in w g then Some g else None),
             mkSt (js s) w)
        | (inl _, w) => (Return None, mkSt (js s) w)
        end
  end.

(** [keeps R m]: running [m] relates the variables before to the variables
    after by [R], whether [m] returns or throws. *)
Definition keeps {A} (R : Js -> Js -> Prop) (m : M A) : Prop :=
  forall s, R (js s) (js (snd (m s))).

Definition same_script (j j' : Js) : Prop := gdScriptPath j' = gdScriptPath j.

Definition same_session (j j' : Js) : Prop :=
  children j' = children j /\ godotProcess j' = godotProcess j.

(** Where the bridge script goes. *)
Definition script_path `{Host} (w : World) : string :=
  path_join (os_tmpdir w) "godot_operations.gd".

(** The state after a successful [writeFileSync]. *)
Definition put_file (p data : string) (s : St) : St :=
  mkSt (js s) (with_fs (<[p := data]> (fs (world s))) (world s)).

(** The diagnostic for a non-empty stderr. *)
Definition stderr_log (r : CommandResult) : list (string * LogArg) :=
  if Str.truthy (stderr r)
  then [("GDScript operation error:", LogString (stderr r))]
  else [].

Definition log (entries : list (string * LogArg)) (s : St) : St :=
  mkSt (with_console (console (js s) ++ entries) (js s)) (world s).

Definition killed (c : Child) : Child :=
  mkChild (child_file c) (child_args c) true (child_output c).

(** What [stopProject] does to the variables, and what the spawn and the
    assignment of [runProject] do. *)
Definition stopped (j : Js) : Js :=
  match godotProcess j with
  | Some pid => with_godotProcess None (with_children (alter killed pid (children j)) j)
  | None => j
  end.

Definition started (godotPath projectPath : string) (j : Js) : Js :=
  with_godotProcess (Some (length (children j)))
    (with_children (children j ++ [mkChild godotPath ["--path"; projectPath] false ""]) j).

(** The session invariant: a spawned child has not been killed exactly when
    it is the one [godotProcess] refers to, and [godotProcess] refers to a
    spawned child. *)
Definition session_ok (j : Js) : Prop :=
  (forall i c, children j !! i = Some c ->
               (child_killed c = false <-> godotProcess j = Some i)) /\
  (forall pid, godotProcess j = Some pid -> is_Some (children j !! pid)).


(** ** Machines to run the model on *)

(** [path.join] on two segments that need no normalisation. *)
Definition plain_join (a b : string) : string := a +:+ "/" +:+ b.

(** A host with the reference JSON functions, [plain_join], a one-line
    script text and the given behaviour of [exec]. *)
Definition node_host
    (exec : string -> option string -> World -> (ExecFailure + CommandResult) * World)
    : Host :=
  mkHost exec plain_join
         (fun a b => match a with "" => eq_refl | String _ _ => eq_refl end)
         Json.parse Json.stringify "extends SceneTree".

(** A Linux machine with Godot at the path named by [GODOT_PATH] and a
    project in [/proj]. *)
Definition demo_world : World :=
  mkWorld {[ "/opt/godot" := "ELF"; "/proj/project.godot" := "config_version=5" ]}
          ∅ (Some "/opt/godot") "linux" "/tmp" 1700000000000.

Definition demo_state : St := mkSt js_start demo_world.

Definition demo_request_path : string := "/tmp/godot_op_1700000000000.json".

(** What Godot prints for a successful operation: a banner, then the result. *)
Definition demo_stdout : string :=
  "Godot Engine v4.2" +:+ String "010"%char
    ("{" +:+ Str.quoted "success" +:+ ":true," +:+ Str.quoted "message" +:+ ":"
     +:+ Str.quoted "ok" +:+ "}" +:+ String "010"%char "").

(** Every command succeeds with [demo_stdout]. *)
Definition host_success : Host :=
  node_host (fun _ _ w => (inr (mkCommandResult demo_stdout ""), w)).

(** No process can be spawned (for instance, the working directory does not
    exist): [exec] rejects with empty streams and no exit code. *)
Definition spawn_failure : ExecFailure :=
  mkExecFailure "spawn /bin/sh ENOENT" None (Some "") (Some "").

Definition host_spawn_failure : Host :=
  node_host (fun _ _ w => (inl spawn_failure, w)).

(** The child runs, prints nothing and exits with code 1. *)
Definition silent_exit (command : string) : ExecFailure :=
  mkExecFailure ("Command failed: " +:+ command +:+ String "010"%char "")
                (Some 1%Z) (Some "") (Some "").

Definition host_silent_exit : Host :=
  node_host (fun command _ w => (inl (silent_exit command), w)).

(** The child succeeds, and when it is done the system refuses the removal
    of the request file. *)
Definition host_locked_request : Host :=
  node_host (fun _ _ w =>
    (inr (mkCommandResult demo_stdout ""),
     mkWorld (fs w) ({[ demo_request_path ]} ∪ denied w) (env_GODOT_PATH w)
             (os_platform w) (os_tmpdir w) (date_now w))).

(** [which godot] finds nothing: the command prints nothing and exits with 1. *)
Definition host_nothing_on_path : Host := host_silent_exit.

(** The machine with the project of [/proj] running: child 0. *)
Definition running_session : St :=
  snd (Commands.runProject (H := host_success) "/proj" demo_state).


(** ** Directory operations of [fs] and [path]

    The builtins the rest of the code calls besides those of [Host]:
    [fs.mkdirSync] with [recursive: true], [fs.promises.readdir] with
    [withFileTypes: true], [path.dirname] and [path.join] on three segments,
    and [fs.readFileSync] in UTF-8.  A failing call gives the error it
    throws. *)

Record Dirent : Type := mkDirent {
  dirent_name : string;
  dirent_isDirectory : bool
}.

Class Directories : Type := mkDirectories {
  mkdirSync : string -> World -> JsError + World;
  readdir : string -> World -> JsError + list Dirent;
  readFileSync : string -> World -> JsError + string;
  path_dirname : string -> string;
  path_join3 : string -> string -> string -> string
}.

Definition nl : string := String "010"%char "".

(** [error.message] *)
Definition error_message (e : JsError) : string :=
  match e with
  | Error m => m
  | SyntaxError m => m
  | SystemError _ m => m
  | ExecError x => failure_message x
  end.

Module NodeDirs.

Definition mkdir {D : Directories} (p : string) : M unit :=
  fun s =>
    match mkdirSync p (world s) with
    | inr w => (Return tt, mkSt (js s) w)
    | inl e => (Throw e, s)
    end.

Definition readdirTyped {D : Directories} (p : string) : M (list Dirent) :=
  fun s =>
    match readdir p (world s) with
    | inr entries => (Return entries, s)
    | inl e => (Throw e, s)
    end.

Definition readFile {D : Directories} (p : string) : M string :=
  fun s =>
    match readFileSync p (world s) with
    | inr content => (Return content, s)
    | inl e => (Throw e, s)
    end.

End NodeDirs.

(** ** The rest of the commands module: editor and projects *)

Module Projects.

Import GodotUtils Commands.

(** The editor is spawned detached with its streams ignored and is
    unreferenced at once: no variable keeps the [ChildProcess]. *)
Definition launchEditor `{Host} (projectPath : string) : M string :=
  godotPath <- initGodot ;;
  ok <- isGodotProject projectPath ;;
  if negb ok then throw (Error ("Invalid Godot project path: " +:+ projectPath)) else
  Node.spawn godotPath ["--editor"; "--path"; projectPath] ;;;
  ret ("Launched Godot editor for project: " +:+ projectPath).

(** The [for] loop of [listProjects] over the directory entries, with the
    array [projects] built so far. *)
Fixpoint collect_projects `{Host} (directoryPath : string) (entries : list Dirent)
    (projects : list string) : M (list string) :=
  match entries with
  | [] => ret projects
  | entry :: rest =>
      if dirent_isDirectory entry then
        let projectPath := path_join directoryPath (dirent_name entry) in
        ok <- isGodotProject projectPath ;;
        if ok then collect_projects directoryPath rest (projects ++ [projectPath])
        else collect_projects directoryPath rest projects
      else collect_projects directoryPath rest projects
  end.

Definition listProjects `{Host} {D : Directories} (directoryPath : string)
    : M (list string) :=
  try_catch
    (entries <- NodeDirs.readdirTyped directoryPath ;;
     collect_projects directoryPath entries [])
    (fun error =>
       throw (Error ("Failed to list Godot projects: " +:+ error_text error))).

Definition projectConfig (projectName : string) : string :=
  Str.join nl
    [ "; Engine configuration file.";
      "; It's best edited using the editor UI and not directly,";
      "; since the parameters that go here are not all obvious.";
      ";";
      "; Format:";
      ";   [section] ; section goes between []";
      ";   param=value ; assign values to parameters";
      "";
      "config_version=5";
      "";
      "[application]";
      "";
      "config/name=" +:+ Str.quoted projectName;
      "config/features=PackedStringArray(" +:+ Str.quoted "4.4" +:+ ")";
      "config/icon=" +:+ Str.quoted "res://icon.svg";
      "";
      "[rendering]";
      "";
      "renderer/rendering_method=" +:+ Str.quoted "gl_compatibility";
      "renderer/rendering_method.mobile=" +:+ Str.quoted "gl_compatibility";
      "" ].

Definition iconSvg : string :=
  Str.join nl
    [ "<svg height=" +:+ Str.quoted "128" +:+ " width=" +:+ Str.quoted "128" +:+ " xmlns=" +:+ Str.quoted "http://www.w3.org/2000/svg" +:+ ">";
      "  <rect x=" +:+ Str.quoted "2" +:+ " y=" +:+ Str.quoted "2" +:+ " width=" +:+ Str.quoted "124" +:+ " height=" +:+ Str.quoted "124" +:+ " rx=" +:+ Str.quoted "14" +:+ " fill=" +:+ Str.quoted "#363d52" +:+ " stroke=" +:+ Str.quoted "#212532" +:+ " stroke-width=" +:+ Str.quoted "4" +:+ "/>";
      "  <circle cx=" +:+ Str.quoted "64" +:+ " cy=" +:+ Str.quoted "64" +:+ " r=" +:+ Str.quoted "42" +:+ " fill=" +:+ Str.quoted "#478cbf" +:+ "/>";
      "</svg>" ].

Definition sceneContent (sceneType : string) : string :=
  Str.join nl
    [ "[gd_scene format=3 uid=" +:+ Str.quoted "uid://bvip5r7kng6y7" +:+ "]";
      "";
      "[node name=" +:+ Str.quoted "Main" +:+ " type=" +:+ Str.quoted sceneType +:+ "]";
      "" ].

Definition createProject `{Host} {D : Directories}
    (parentDirectory projectName template : string) : M string :=
  godotPath <- initGodot ;;
  let projectPath := path_join parentDirectory projectName in
  taken <- Node.existsSync projectPath ;;
  if taken then throw (Error ("Directory already exists: " +:+ projectPath)) else
  NodeDirs.mkdir projectPath ;;;
  NodeDirs.mkdir (path_join projectPath "scenes") ;;;
  NodeDirs.mkdir (path_join projectPath "scripts") ;;;
  NodeDirs.mkdir (path_join projectPath "assets") ;;;
  Node.writeFileSync (path_join projectPath "project.godot")
    (projectConfig projectName) ;;;
  Node.writeFileSync (path_join projectPath "icon.svg") iconSvg ;;;
  (if String.eqb template "3d" || String.eqb template "2d" then
     let sceneType := if String.eqb template "3d" then "Node3D" else "Node2D" in
     let scenePath := path_join3 projectPath "scenes" "Main.tscn" in
     Node.writeFileSync scenePath (sceneContent sceneType)
   else ret tt) ;;;
  ret ("Created new Godot project at: " +:+ projectPath).

End Projects.

(** ** The tool handlers

    A handler answers with one text item; the model keeps the text.  The
    handlers of [get_scene_tree], [create_scene] and [add_node] format fields
    of the parsed result with JavaScript's conversions and are not modelled. *)

Module Tools.

Definition godot_version `{Host} : M string :=
  try_catch
    (version <- Commands.getGodotVersion ;;
     ret ("Godot version: " +:+ version))
    (fun error => ret ("Error: " +:+ error_message error)).

Definition launch_editor `{Host} (projectPath : string) : M string :=
  try_catch
    (Projects.launchEditor projectPath)
    (fun error => ret ("Error launching editor: " +:+ error_message error)).

Definition list_projects `{Host} {D : Directories} (directoryPath : string)
    : M string :=
  try_catch
    (projects <- Projects.listProjects directoryPath ;;
     let projectsList := Str.join nl projects in
     ret (if Nat.ltb 0 (length projects)
          then "Found " +:+ pretty (length projects) +:+ " Godot projects:"
               +:+ nl +:+ projectsList
          else "No Godot projects found in the specified directory"))
    (fun error => ret ("Error listing projects: " +:+ error_message error)).

Definition create_project `{Host} {D : Directories}
    (parentDirectory projectName : string) (template : option string) : M string :=
  try_catch
    (Projects.createProject parentDirectory projectName (default "3d" template))
    (fun error => ret ("Error creating project: " +:+ error_message error)).

Definition run_project `{Host} (projectPath : string) : M string :=
  try_catch
    (Commands.runProject projectPath)
    (fun error => ret ("Error running project: " +:+ error_message error)).

Definition stop_project : M string :=
  try_catch
    Commands.stopProject
    (fun error => ret ("Error stopping project: " +:+ error_message error)).

Definition get_debug_output : M string :=
  try_catch
    Commands.getDebugOutput
    (fun error => ret ("Error getting debug output: " +:+ error_message error)).

Definition write_file {D : Directories} (filePath content : string) : M string :=
  try_catch
    (let dirPath := path_dirname filePath in
     there <- Node.existsSync dirPath ;;
     (if negb there then NodeDirs.mkdir dirPath else ret tt) ;;;
     Node.writeFileSync filePath content ;;;
     ret ("File written successfully: " +:+ filePath))
    (fun error => ret ("Error writing file: " +:+ error_message error)).

Definition read_file {D : Directories} (filePath : string) : M string :=
  try_catch
    (there <- Node.existsSync filePath ;;
     if negb there then ret ("File not found: " +:+ filePath) else
     content <- NodeDirs.readFile filePath ;;
     ret ("File content:" +:+ nl +:+ content))
    (fun error => ret ("Error reading file: " +:+ error_message error)).

End Tools.

(** ** The server with the editor and project commands *)

Inductive Call : Type :=
| Core (e : Event)
| LaunchEditor (projectPath : string)
| ListProjects (directoryPath : string)
| CreateProject (parentDirectory projectName template : string).

Definition step_call `{Host} {D : Directories} (c : Call) (s : St) : St :=
  match c with
  | Core e => step e s
  | LaunchEditor p => snd (Projects.launchEditor p s)
  | ListProjects d => snd (Projects.listProjects d s)
  | CreateProject parent name template =>
      snd (Projects.createProject parent name template s)
  end.

Definition run_calls `{Host} {D : Directories} (calls : list Call) (s : St) : St :=
  fold_left (fun acc c => step_call c acc) calls s.

(** A child started by [launchEditor]. *)
Definition is_editor (c : Child) : bool :=
  match child_args c with
  | a :: _ => String.eqb a "--editor"
  | [] => false
  end.

(** Editors are alive and [godotProcess] refers to a spawned child that is
    not one of them. *)
Definition editors_safe (j : Js) : Prop :=
  (forall i c, children j !! i = Some c -> is_editor c = true ->
               child_killed c = false) /\
  (forall pid, godotProcess j = Some pid ->
     exists c, children j !! pid = Some c /\ is_editor c = false).

(** The error [initGodot] raises when the locator finds nothing. *)
Definition not_found_message : string :=
  "Godot executable not found. Set GODOT_PATH environment variable to your Godot executable.".

(** Once [godotPath] holds [p], it holds [p]. *)
Definition godotPath_stays (p : string) (j j' : Js) : Prop :=
  godotPath j = Some p -> godotPath j' = Some p.

(** The paths [listProjects] returns for a list of entries: the
    subdirectories that hold a [project.godot], in order. *)
Definition project_dirs `{Host} (w : World) (directoryPath : string)
    (entries : list Dirent) : list string :=
  List.filter (fun p => exists_in w (path_join p "project.godot"))
    (map (fun e => path_join directoryPath (dirent_name e))
         (List.filter dirent_isDirectory entries)).

(** [path.dirname] on an absolute path without trailing slash. *)
Fixpoint drop_last_segment (reversed : string) : string :=
  match reversed with
  | "" => ""
  | String c r => if Ascii.eqb c "/"%char then r else drop_last_segment r
  end.

Definition plain_dirname (p : string) : string :=
  let d := String.rev (drop_last_segment (String.rev p)) in
  if Str.truthy d then d else "/".

(** What a POSIX file tree with the directories [dirs] and the regular
    files [files] refuses: a directory is not written as a file, and nothing
    is created below a regular file or in a directory that does not exist. *)
Definition tree_refusals (dirs files : list string) : Refusals :=
  mkRefusals (fun p =>
    if bool_decide (p ∈ dirs) then Some EISDIR
    else if existsb (fun f => String.prefix (f +:+ "/") p) files then Some ENOTDIR
    else if bool_decide (plain_dirname p ∈ dirs) then None
    else Some ENOENT).

(** The world in which [p] has become a directory: from now on files can be
    created in it. *)
Definition with_directory (p : string) (w : World) : World :=
  mkWorld (<[p := ""]> (fs w))
    (mkRefusals (fun q =>
       if String.eqb q p then Some EISDIR
       else
         match refusal (denied w) q with
         | Some ENOENT =>
             if String.eqb (plain_dirname q) p then None else Some ENOENT
         | other => other
         end))
    (env_GODOT_PATH w) (os_platform w) (os_tmpdir w) (date_now w).

Definition mkdir_error (name text p : string) : JsError :=
  SystemError name (name +:+ ": " +:+ text +:+ ", mkdir '" +:+ p +:+ "'").

(** [mkdirSync(p, { recursive: true })] on such a tree: a directory that is
    there is left alone, missing parents are created first. *)
Fixpoint make_directories (fuel : nat) (p : string) (w : World) : JsError + World :=
  match refusal (denied w) p with
  | Some EISDIR => inr w
  | Some ENOENT =>
      match fuel with
      | S fuel' =>
          match make_directories fuel' (plain_dirname p) w with
          | inr w1 => inr (with_directory p w1)
          | inl e => inl e
          end
      | 0 => inl (mkdir_error "ENOENT" "no such file or directory" p)
      end
  | Some code => inl (mkdir_error (Node.errno_name code) (Node.errno_text code) p)
  | None =>
      if exists_in w p then inl (mkdir_error "EEXIST" "file already exists" p)
      else inr (with_directory p w)
  end.

(** A file tree with directories for the machines: [mkdirSync] as above,
    [readdir] lists three entries for [/work], [readFileSync] reads what
    [fs] holds for a regular file. *)
Definition demo_directories : Directories :=
  mkDirectories
    (fun p w => make_directories (String.length p) p w)
    (fun p w =>
       if String.eqb p "/work"
       then inr [mkDirent "game" true; mkDirent "notes.txt" false;
                 mkDirent "empty" true]
       else inl (SystemError "ENOENT"
                   ("ENOENT: no such file or directory, scandir '" +:+ p +:+ "'")))
    (fun p w =>
       match refusal (denied w) p, fs w !! p with
       | Some EISDIR, _ =>
           inl (SystemError "EISDIR" "EISDIR: illegal operation on a directory, read")
       | _, Some c => inr c
       | _, None => inl (SystemError "ENOENT"
                           ("ENOENT: no such file or directory, open '" +:+ p +:+ "'"))
       end)
    plain_dirname
    (fun a b c => plain_join (plain_join a b) c).

Definition work_world : World :=
  mkWorld {[ "/" := ""; "/opt" := ""; "/opt/godot" := "ELF"; "/tmp" := "";
             "/work" := ""; "/work/game" := "";
             "/work/game/project.godot" := "config_version=5";
             "/work/empty" := "" ]}
          (tree_refusals ["/"; "/opt"; "/tmp"; "/work"; "/work/game"; "/work/empty"]
                         ["/opt/godot"; "/work/game/project.godot"])
          (Some "/opt/godot") "linux" "/tmp" 1700000000000.

Definition work_state : St := mkSt js_start work_world.

(** * Properties *)

(** ** Strings *)

#[local] Arguments Ascii.eqb : simpl never.

Lemma str_app_cons (x : ascii) (a b : string) :
  String x a +:+ b = String x (a +:+ b).
Proof. reflexivity. Qed.

Lemma str_app_nil_l (b : string) : "" +:+ b = b.
Proof. reflexivity. Qed.

Ltac str_simpl := rewrite ?str_app_cons, ?str_app_nil_l; simpl.

Lemma str_app_assoc (a b c : string) : (a +:+ b) +:+ c = a +:+ (b +:+ c).
Proof. induction a as [|x a IH]; str_simpl; [reflexivity | f_equal; exact IH]. Qed.

Lemma str_app_nil_r (a : string) : a +:+ "" = a.
Proof. induction a as [|x a IH]; str_simpl; [reflexivity | f_equal; exact IH]. Qed.

Lemma occurs_app (c : ascii) (a b : string) :
  Str.occurs c (a +:+ b) = Str.occurs c a || Str.occurs c b.
Proof.
  induction a as [|x a IH]; str_simpl; [reflexivity |].
  destruct (Ascii.eqb x c); [reflexivity | exact IH].
Qed.

(** ** The brace pattern: first opening brace through last closing brace *)

Section BraceMatch.

Import Regex.

Lemma greedy_close_none (s : string) :
  Str.occurs Str.rbrace s = false -> greedy_close s = None.
Proof.
  induction s as [|c s IH]; simpl; [reflexivity |].
  destruct (Ascii.eqb c Str.rbrace) eqn:E; simpl; [done |].
  intros Hs. by rewrite (IH Hs).
Qed.

Lemma greedy_close_none_inv (s : string) :
  greedy_close s = None -> Str.occurs Str.rbrace s = false.
Proof.
  induction s as [|c s IH]; simpl; [reflexivity |].
  destruct (greedy_close s); [done |].
  destruct (Ascii.eqb c Str.rbrace); simpl; [done | intros _; by apply IH].
Qed.

Lemma greedy_close_last (mid post : string) :
  Str.occurs Str.rbrace post = false ->
  greedy_close (mid +:+ String Str.rbrace post) = Some (mid +:+ String Str.rbrace "").
Proof.
  intros Hpost. induction mid as [|c mid IH]; str_simpl.
  - by rewrite (greedy_close_none _ Hpost).
  - by rewrite IH.
Qed.

Lemma greedy_close_inv (s t : string) :
  greedy_close s = Some t ->
  exists mid post,
    t = mid +:+ String Str.rbrace "" /\ s = mid +:+ String Str.rbrace post /\
    Str.occurs Str.rbrace post = false.
Proof.
  revert t. induction s as [|c s IH]; simpl; intros t Ht; [discriminate |].
  destruct (greedy_close s) as [u|] eqn:Hu.
  - injection Ht as <-. destruct (IH u eq_refl) as (mid & post & -> & -> & Hp).
    by exists (String c mid), post.
  - destruct (Ascii.eqb c Str.rbrace) eqn:E; [| discriminate].
    injection Ht as <-. apply Ascii.eqb_eq in E as ->.
    exists "", s. repeat split. by apply greedy_close_none_inv.
Qed.

Lemma brace_match_first_last (pre mid post : string) :
  Str.occurs Str.lbrace pre = false ->
  Str.occurs Str.rbrace post = false ->
  brace_match (pre +:+ String Str.lbrace (mid +:+ String Str.rbrace post))
  = Some (String Str.lbrace (mid +:+ String Str.rbrace "")).
Proof.
  intros Hpre Hpost. induction pre as [|c pre IH]; str_simpl.
  - by rewrite (greedy_close_last _ _ Hpost).
  - simpl in Hpre.
    destruct (Ascii.eqb c Str.lbrace); [discriminate |]. by apply IH.
Qed.

Lemma brace_match_inv (s m : string) :
  brace_match s = Some m ->
  exists pre mid post,
    s = pre +:+ String Str.lbrace (mid +:+ String Str.rbrace post) /\
    m = String Str.lbrace (mid +:+ String Str.rbrace "") /\
    Str.occurs Str.lbrace pre = false /\
    Str.occurs Str.rbrace post = false.
Proof.
  induction s as [|c s IH]; simpl; [discriminate |].
  destruct (Ascii.eqb c Str.lbrace) eqn:E.
  - apply Ascii.eqb_eq in E as ->.
    destruct (greedy_close s) as [t|] eqn:Ht; simpl.
    + intros [= <-]. destruct (greedy_close_inv _ _ Ht) as (mid & post & -> & -> & Hp).
      by exists "", mid, post.
    + intros Hm. destruct (IH Hm) as (pre & mid & post & -> & _ & _ & _).
      apply greedy_close_none_inv in Ht.
      rewrite occurs_app in Ht. simpl in Ht. rewrite occurs_app in Ht.
      simpl in Ht. rewrite !orb_true_r in Ht. discriminate.
  - intros Hm. destruct (IH Hm) as (pre & mid & post & -> & -> & Hpre & Hpost).
    exists (String c pre), mid, post. simpl. by rewrite E.
Qed.

End BraceMatch.

(** ** The result extractor *)

Section Extractor.

Context `{Host}.
Import Operations.

(** Whatever goes wrong inside the [try] block, the caller sees the error
    built by the [catch] clause. *)
Lemma parse_result_eq (text : string) (s : St) :
  parse_result text s =
  (match Regex.brace_match text with
   | Some m =>
       match JSON_parse m with
       | Some v => Return v
       | None => Throw (parse_failure text)
       end
   | None => Throw (parse_failure text)
   end, s).
Proof.
  unfold parse_result, try_catch, parse_failure.
  destruct (Regex.brace_match text) as [m|]; [| reflexivity].
  destruct (JSON_parse m); reflexivity.
Qed.

Lemma parse_result_no_match (text : string) (s : St) :
  Regex.brace_match text = None ->
  parse_result text s = (Throw (parse_failure text), s).
Proof. intros E. by rewrite parse_result_eq, E. Qed.

Lemma parse_result_malformed (text m : string) (s : St) :
  Regex.brace_match text = Some m -> JSON_parse m = None ->
  parse_result text s = (Throw (parse_failure text), s).
Proof. intros E P. by rewrite parse_result_eq, E, P. Qed.

(** C6. For every text, the span handed to [JSON.parse] runs from the first
    opening brace of the text through its last closing brace (the greedy
    match of the pattern, with no balancing of nested braces): a span is
    selected exactly when the text splits into a prefix without opening
    brace, that span, and a suffix without closing brace.  The extractor
    parses this one span and returns its value, so it extracts at most one
    JSON object whatever surrounds it. *)
Theorem extractor_greedy_first_to_last (text : string) :
  (forall m,
     Regex.brace_match text = Some m <->
     exists pre mid post,
       text = pre +:+ "{" +:+ mid +:+ "}" +:+ post /\
       m = "{" +:+ mid +:+ "}" /\
       Str.occurs "{" pre = false /\
       Str.occurs "}" post = false) /\
  (forall s,
     parse_result text s =
     (match Regex.brace_match text with
      | Some span =>
          match JSON_parse span with
          | Some v => Return v
          | None => Throw (parse_failure text)
          end
      | None => Throw (parse_failure text)
      end, s)).
Proof.
  split; [| apply parse_result_eq].
  intros m. split.
  - intros Hm. destruct (brace_match_inv _ _ Hm) as (pre & mid & post & E).
    exists pre, mid, post. exact E.
  - intros (pre & mid & post & -> & -> & Hpre & Hpost).
    exact (brace_match_first_last pre mid post Hpre Hpost).
Qed.

(** C2 (the code does not keep the two failures apart). On the text
    [no json here] the pattern finds nothing, the [throw] of the
    "No JSON found" error sits inside the [try] block, and the [catch]
    clause replaces it by the error it also raises for malformed JSON. *)
Theorem no_json_reported_as_parse_failure (s : St) :
  parse_result "no json here" s =
  (Throw (Error "Failed to parse GDScript operation result: no json here"), s).
Proof. apply parse_result_no_match. reflexivity. Qed.

End Extractor.

(** ** The process runner *)

Section Runner.

Context `{Host}.
Import GodotUtils.

Lemma or_empty_default (o : option string) : Str.or_empty o = default "" o.
Proof. destruct o as [[|c r]|]; reflexivity. Qed.

Lemma runGodotCommand_eq (godotPath : string) (args : list string)
    (cwd : option string) (s : St) :
  runGodotCommand godotPath args cwd s =
  match execAsync (command_line godotPath args) cwd (world s) with
  | (inr r, w) => (Return r, mkSt (js s) w)
  | (inl x, w) => recover (ExecError x) (mkSt (js s) w)
  end.
Proof.
  unfold runGodotCommand, try_catch, Node.exec.
  destruct (execAsync _ _ _) as [[x|r] w]; reflexivity.
Qed.

(** C1, as the code has it. When [exec] resolves, the runner returns its
    result.  When [exec] rejects, the runner returns a normal result carrying
    the captured stdout and stderr if at least one of them is not empty, and
    raises the rejection otherwise: it raises exactly when the error carries
    no output at all, which is the case of a process that could not be
    spawned and also of a child that exits with a non-zero code without
    printing anything. *)
Theorem runner_raises_only_without_output (godotPath : string)
    (args : list string) (cwd : option string) (s : St) :
  (forall r w,
     execAsync (command_line godotPath args) cwd (world s) = (inr r, w) ->
     runGodotCommand godotPath args cwd s = (Return r, mkSt (js s) w)) /\
  (forall x w,
     execAsync (command_line godotPath args) cwd (world s) = (inl x, w) ->
     runGodotCommand godotPath args cwd s =
     if Str.truthy (default "" (failure_stdout x))
        || Str.truthy (default "" (failure_stderr x))
     then (Return (mkCommandResult (default "" (failure_stdout x))
                                   (default "" (failure_stderr x))),
           mkSt (js s) w)
     else (Throw (ExecError x), mkSt (js s) w)).
Proof.
  split; intros r w E; rewrite runGodotCommand_eq, E; [reflexivity |].
  unfold recover; simpl. rewrite !or_empty_default.
  destruct r as [m c [o|] [e|]]; simpl;
    repeat match goal with |- context [Str.truthy ?t] => destruct (Str.truthy t) end;
    reflexivity.
Qed.

(** The joined arguments, spelled out: every argument as it is, one space
    between two of them. *)
Lemma join_spelled_out (a : string) (args : list string) :
  " " +:+ Str.join " " (a :: args)
  = fold_right (fun x rest => " " +:+ x +:+ rest) "" (a :: args).
Proof.
  revert a. induction args as [|b args IH]; intros a.
  - simpl. str_simpl. f_equal. symmetry. apply str_app_nil_r.
  - change (Str.join " " (a :: b :: args))
      with (a +:+ " " +:+ Str.join " " (b :: args)).
    rewrite IH. reflexivity.
Qed.

(** C10. The runner hands the shell one string: the executable between
    double quotes, then every argument preceded by one space and written as
    it is, with no quoting of its own (with no argument at all, the quoted
    executable and one space).  So an argument with a space or a shell
    metacharacter reaches the shell unprotected, as in the two command lines
    below; and two different argument lists with a space inside an argument
    give the same string, so whatever way the shell splits a command line,
    for some argument containing a space the child does not receive the list
    that was passed. *)
Theorem runner_builds_one_unquoted_command_line (godotPath : string) :
  (forall args cwd s,
     runGodotCommand godotPath args cwd s =
     match execAsync (Str.quoted godotPath +:+ " " +:+ Str.join " " args)
                     cwd (world s) with
     | (inr r, w) => (Return r, mkSt (js s) w)
     | (inl x, w) => recover (ExecError x) (mkSt (js s) w)
     end) /\
  command_line godotPath []
    = String "034" (godotPath +:+ String "034" " ") /\
  (forall a args,
     command_line godotPath (a :: args)
     = String "034" (godotPath +:+ String "034"
         (fold_right (fun x rest => " " +:+ x +:+ rest) "" (a :: args)))) /\
  command_line godotPath ["--script"; "/tmp/godot_operations.gd"; "/tmp/My Game/op.json"]
    = String "034" (godotPath +:+ String "034"
        " --script /tmp/godot_operations.gd /tmp/My Game/op.json") /\
  command_line godotPath ["--path"; "/proj; echo $HOME"; "--editor"]
    = String "034" (godotPath +:+ String "034"
        " --path /proj; echo $HOME --editor") /\
  (forall shell : string -> list string,
     exists args arg,
       arg ∈ args /\ Str.occurs " " arg = true /\
       shell (command_line godotPath args) <> godotPath :: args).
Proof.
  split; [intros; apply runGodotCommand_eq |].
  assert (forall t, Str.quoted godotPath +:+ t
                    = String "034" (godotPath +:+ String "034" t)) as Q.
  { intros t. unfold Str.quoted, Str.dquote. str_simpl. f_equal.
    rewrite str_app_assoc. by str_simpl. }
  split; [apply Q |].
  split; [intros a args; unfold command_line; by rewrite <- join_spelled_out, Q |].
  split; [apply Q |]. split; [apply Q |].
  intros shell.
  destruct (decide (shell (command_line godotPath ["a b"; "c"])
                    = godotPath :: ["a b"; "c"])) as [E|N].
  - exists ["a"; "b c"], "b c". split; [set_solver |]. split; [reflexivity |].
    change (command_line godotPath ["a"; "b c"])
      with (command_line godotPath ["a b"; "c"]).
    rewrite E. discriminate.
  - exists ["a b"; "c"], "a b". split; [set_solver |]. split; [reflexivity | exact N].
Qed.

End Runner.

(** ** The executable locator *)

Section Locator.

Context `{Host}.
Import GodotUtils.

Lemma first_existing_eq (paths : list string) (s : St) :
  first_existing paths s = (Return (List.find (exists_in (world s)) paths), s).
Proof.
  induction paths as [|p rest IH]; simpl; [reflexivity |].
  unfold bind, Node.existsSync, gets. fold (exists_in (world s) p).
  destruct (exists_in (world s) p); [reflexivity | exact IH].
Qed.

Lemma set_and_exists_eq (o : option string) (s : St) :
  set_and_exists o s =
  (Return (Str.truthy_opt o && exists_in (world s) (default "" o)), s).
Proof. destruct o as [[|c r]|]; reflexivity. Qed.

Lemma findGodotPath_eq (s : St) :
  findGodotPath s =
  if Str.truthy_opt (env_GODOT_PATH (world s))
     && exists_in (world s) (default "" (env_GODOT_PATH (world s)))
  then (Return (env_GODOT_PATH (world s)), s)
  else static_then_which s.
Proof.
  unfold findGodotPath, static_then_which.
  unfold bind at 1. unfold gets at 1. simpl.
  unfold bind at 1. rewrite set_and_exists_eq.
  destruct (Str.truthy_opt _ && _); [reflexivity |].
  unfold bind at 1. unfold gets at 1. simpl.
  unfold bind at 1. rewrite first_existing_eq.
  destruct (List.find _ _) as [q|]; [reflexivity |].
  unfold try_catch.
  destruct (String.eqb (os_platform (world s)) "win32"); [reflexivity |]. simpl.
  unfold bind at 1. unfold Node.exec.
  destruct (execAsync _ _ _) as [[x|r] w]; [reflexivity |].
  unfold bind. destruct (Str.truthy (Str.trim (stdout r))); simpl; [| reflexivity].
  unfold Node.existsSync, gets, exists_in. simpl.
  destruct (bool_decide _); reflexivity.
Qed.

Lemma find_exists_in (w : World) (paths : list string) (q : string) :
  List.find (exists_in w) paths = Some q -> is_Some (fs w !! q).
Proof.
  intros F. apply List.find_some in F as [_ F].
  unfold exists_in in F. by apply bool_decide_eq_true in F.
Qed.

(** The locator never raises, and a path it returns exists. *)
Lemma findGodotPath_total (s : St) :
  exists r s', findGodotPath s = (Return r, s') /\ js s' = js s /\
    forall q, r = Some q -> Str.truthy q = true /\ is_Some (fs (world s') !! q).
Proof.
  rewrite findGodotPath_eq.
  destruct (Str.truthy_opt _ && _) eqn:E.
  - eexists _, _. split; [reflexivity |]. split; [reflexivity |].
    intros q Hq. rewrite Hq in E. simpl in E.
    apply andb_true_iff in E as [E1 E2]. split; [exact E1 |].
    by apply bool_decide_eq_true in E2.
  - clear E. unfold static_then_which.
    destruct (List.find _ _) as [q|] eqn:F.
    + eexists _, _. split; [reflexivity |]. split; [reflexivity |].
      intros q' [= <-]. split; [| by eapply find_exists_in].
      apply List.find_some in F as [F _]. revert F. unfold GODOT_PATHS.
      repeat case_match; simpl; intros F;
        repeat (destruct F as [<-|F]; [reflexivity |]); destruct F.
    + destruct (String.eqb _ _).
      * eexists _, _. split; [reflexivity |]. split; [reflexivity |]. discriminate.
      * destruct (execAsync _ _ _) as [[x|r] w].
        -- eexists _, _. split; [reflexivity |]. split; [reflexivity |]. discriminate.
        -- eexists _, _. split; [reflexivity |]. split; [reflexivity |].
           intros q. destruct (Str.truthy _ && _) eqn:E; [| discriminate].
           intros [= <-]. apply andb_true_iff in E as [E1 E2]. split; [exact E1 |].
           by apply bool_decide_eq_true in E2.
Qed.

(** C8. On every platform, an override that is set but does not exist is
    ignored: the locator goes on to the static list of the platform and
    then, except on Windows, to [which godot].  A path is returned only if
    it exists; when nothing is found the result is [null], and no
    exception leaves the function. *)
Theorem locator_falls_through_missing_override (s : St) (p : string) :
  env_GODOT_PATH (world s) = Some p ->
  fs (world s) !! p = None ->
  findGodotPath s = static_then_which s /\
  (exists r s', findGodotPath s = (Return r, s')) /\
  (forall q s', findGodotPath s = (Return (Some q), s') ->
                is_Some (fs (world s') !! q)).
Proof.
  intros Henv Hmiss. split; [| split].
  - rewrite findGodotPath_eq, Henv. simpl. unfold exists_in.
    rewrite Hmiss, bool_decide_eq_false_2, andb_false_r; [reflexivity |].
    by intros [? ?].
  - destruct (findGodotPath_total s) as (r & s' & E & _). by exists r, s'.
  - intros q s' E. destruct (findGodotPath_total s) as (r & s1 & E1 & _ & Hr).
    rewrite E in E1. injection E1 as <- <-. by apply Hr.
Qed.

End Locator.

(** ** What the system refuses *)

Lemma permitted (p : string) (r : Refusals) : p ∉ r -> refusal r p = None.
Proof. intros N. by apply eq_None_not_Some. Qed.

Lemma refused (p : string) (r : Refusals) :
  p ∈ r -> exists code, refusal r p = Some code.
Proof. by intros [code E]; exists code. Qed.

(** ** Which variables a computation leaves alone *)

Section Keeps.

Variable R : Js -> Js -> Prop.
Hypothesis R_refl : forall j, R j j.
Hypothesis R_trans : forall j1 j2 j3, R j1 j2 -> R j2 j3 -> R j1 j3.

Lemma keeps_ret {A} (a : A) : keeps R (ret a).
Proof. intros s. apply R_refl. Qed.

Lemma keeps_throw {A} (e : JsError) : keeps R (@throw A e).
Proof. intros s. apply R_refl. Qed.

Lemma keeps_gets {A} (f : St -> A) : keeps R (gets f).
Proof. intros s. apply R_refl. Qed.

Lemma keeps_bind {A B} (m : M A) (k : A -> M B) :
  keeps R m -> (forall a, keeps R (k a)) -> keeps R (bind m k).
Proof.
  intros Hm Hk s. unfold bind. specialize (Hm s).
  destruct (m s) as [[a|e] s1]; simpl in *; [| exact Hm].
  eapply R_trans; [exact Hm | apply Hk].
Qed.

Lemma keeps_try_catch {A} (m : M A) (h : JsError -> M A) :
  keeps R m -> (forall e, keeps R (h e)) -> keeps R (try_catch m h).
Proof.
  intros Hm Hh s. unfold try_catch. specialize (Hm s).
  destruct (m s) as [[a|e] s1]; simpl in *; [exact Hm |].
  eapply R_trans; [exact Hm | apply Hh].
Qed.

Lemma keeps_if {A} (b : bool) (m1 m2 : M A) :
  keeps R m1 -> keeps R m2 -> keeps R (if b then m1 else m2).
Proof. by destruct b. Qed.

Lemma keeps_modify_js (f : Js -> Js) :
  (forall j, R j (f j)) -> keeps R (modify_js f).
Proof. intros Hf s. apply Hf. Qed.

Lemma keeps_existsSync (p : string) : keeps R (Node.existsSync p).
Proof. apply keeps_gets. Qed.

Lemma keeps_writeFileSync (p data : string) : keeps R (Node.writeFileSync p data).
Proof. intros s. unfold Node.writeFileSync. destruct (refusal _ _); apply R_refl. Qed.

Lemma keeps_unlinkSync (p : string) : keeps R (Node.unlinkSync p).
Proof.
  intros s. unfold Node.unlinkSync. repeat case_bool_decide; apply R_refl.
Qed.

Lemma keeps_exec `{Host} (command : string) (cwd : option string) :
  keeps R (Node.exec command cwd).
Proof.
  intros s. unfold Node.exec.
  destruct (execAsync _ _ _) as [[x|r] w]; apply R_refl.
Qed.

Lemma keeps_first_existing (paths : list string) :
  keeps R (GodotUtils.first_existing paths).
Proof.
  induction paths as [|p rest IH]; simpl; [apply keeps_ret |].
  apply keeps_bind; [apply keeps_existsSync |].
  intros []; [apply keeps_ret | exact IH].
Qed.

Lemma keeps_set_and_exists (o : option string) :
  keeps R (GodotUtils.set_and_exists o).
Proof.
  destruct o as [q|]; simpl; [| apply keeps_ret].
  apply keeps_if; [apply keeps_existsSync | apply keeps_ret].
Qed.

Lemma keeps_findGodotPath `{Host} : keeps R GodotUtils.findGodotPath.
Proof.
  unfold GodotUtils.findGodotPath.
  apply keeps_bind; [apply keeps_gets | intros env].
  apply keeps_bind; [apply keeps_set_and_exists | intros hit].
  apply keeps_if; [apply keeps_ret |].
  apply keeps_bind; [apply keeps_gets | intros platform].
  apply keeps_bind; [apply keeps_first_existing | intros [q|]];
    [apply keeps_ret |].
  apply keeps_try_catch; [| intros; apply keeps_ret].
  apply keeps_if; [| apply keeps_ret].
  apply keeps_bind; [apply keeps_exec | intros r].
  apply keeps_bind; [apply keeps_set_and_exists | intros ok].
  apply keeps_if; apply keeps_ret.
Qed.

Lemma keeps_runGodotCommand `{Host} (godotPath : string) (args : list string)
    (cwd : option string) :
  keeps R (GodotUtils.runGodotCommand godotPath args cwd).
Proof.
  apply keeps_try_catch; [apply keeps_exec | intros e].
  unfold GodotUtils.recover. apply keeps_if; [apply keeps_ret | apply keeps_throw].
Qed.

Lemma keeps_isGodotProject `{Host} (projectPath : string) :
  keeps R (GodotUtils.isGodotProject projectPath).
Proof.
  apply keeps_try_catch; [apply keeps_existsSync | intros; apply keeps_ret].
Qed.

Lemma keeps_parse_result `{Host} (text : string) :
  keeps R (Operations.parse_result text).
Proof.
  apply keeps_try_catch; [| intros; apply keeps_throw].
  destruct (Regex.brace_match text); [| apply keeps_throw].
  destruct (JSON_parse _); [apply keeps_ret | apply keeps_throw].
Qed.

(** The remaining lemmas need [R] to allow the assignments the code makes. *)
Hypothesis R_console : forall j c, R j (with_console c j).

Lemma keeps_console_error (label : string) (arg : LogArg) :
  keeps R (Node.console_error label arg).
Proof. apply keeps_modify_js. intros j. apply R_console. Qed.

Lemma keeps_run_script `{Host} (godotPath scriptPath tempJsonPath projectPath : string) :
  keeps R (Operations.run_script godotPath scriptPath tempJsonPath projectPath).
Proof.
  apply keeps_bind; [apply keeps_runGodotCommand | intros r].
  apply keeps_bind.
  { apply keeps_try_catch; [apply keeps_unlinkSync | intros; apply keeps_console_error]. }
  intros _. apply keeps_bind; [| intros _; apply keeps_parse_result].
  apply keeps_if; [apply keeps_console_error | apply keeps_ret].
Qed.

Hypothesis R_godotPath : forall j p, R j (with_godotPath p j).

Lemma keeps_initGodot `{Host} : keeps R Commands.initGodot.
Proof.
  assert (keeps R Commands.resolve_godot) as Hr.
  { apply keeps_bind; [apply keeps_findGodotPath | intros p].
    apply keeps_bind; [apply keeps_modify_js; intros; apply R_godotPath |].
    intros _. destruct p as [q|]; [| apply keeps_throw].
    apply keeps_if; [apply keeps_ret | apply keeps_throw]. }
  apply keeps_bind; [apply keeps_gets | intros [p|]]; [| exact Hr].
  apply keeps_if; [apply keeps_ret | exact Hr].
Qed.

Lemma keeps_getGodotVersion `{Host} : keeps R Commands.getGodotVersion.
Proof.
  apply keeps_bind; [apply keeps_initGodot | intros p].
  apply keeps_bind; [apply keeps_runGodotCommand | intros r; apply keeps_ret].
Qed.

Lemma keeps_getDebugOutput : keeps R Commands.getDebugOutput.
Proof.
  apply keeps_bind; [apply keeps_gets | intros [pid|]]; apply keeps_ret.
Qed.

Hypothesis R_children : forall j c, R j (with_children c j).
Hypothesis R_godotProcess : forall j p, R j (with_godotProcess p j).

Lemma keeps_stopProject : keeps R Commands.stopProject.
Proof.
  apply keeps_bind; [apply keeps_gets | intros [pid|]]; [| apply keeps_ret].
  apply keeps_bind; [apply keeps_modify_js; intros; apply R_children |].
  intros _. apply keeps_bind; [| intros; apply keeps_ret].
  apply keeps_modify_js; intros; apply R_godotProcess.
Qed.

Lemma keeps_runProject `{Host} (projectPath : string) :
  keeps R (Commands.runProject projectPath).
Proof.
  apply keeps_bind; [apply keeps_initGodot | intros p].
  apply keeps_bind; [apply keeps_isGodotProject | intros ok].
  apply keeps_if; [apply keeps_throw |].
  apply keeps_bind; [apply keeps_gets | intros cur].
  apply keeps_bind.
  { destruct cur; [| apply keeps_ret].
    apply keeps_bind; [apply keeps_stopProject | intros; apply keeps_ret]. }
  intros _. apply keeps_bind.
  { intros s. apply R_children. }
  intros pid. apply keeps_bind; [| intros; apply keeps_ret].
  apply keeps_modify_js; intros; apply R_godotProcess.
Qed.

Hypothesis R_gdScriptPath : forall j p, R j (with_gdScriptPath p j).

Lemma keeps_initOperationsScript `{Host} : keeps R Operations.initOperationsScript.
Proof.
  assert (keeps R Operations.create_script) as Hc.
  { apply keeps_bind; [apply keeps_gets | intros tempDir].
    apply keeps_bind; [apply keeps_modify_js; intros; apply R_gdScriptPath |].
    intros _. apply keeps_bind; [| intros; apply keeps_ret].
    apply keeps_try_catch; [apply keeps_writeFileSync | intros; apply keeps_throw]. }
  apply keeps_bind; [apply keeps_gets | intros [p|]]; [| exact Hc].
  apply keeps_if; [apply keeps_ret | exact Hc].
Qed.

Lemma keeps_runGodotOperation `{Host} (projectPath operation : string)
    (params : Obj.t) :
  keeps R (Operations.runGodotOperation projectPath operation params).
Proof.
  apply keeps_bind; [apply keeps_findGodotPath | intros [godotPath|]];
    [| apply keeps_throw].
  apply keeps_if; [apply keeps_throw |].
  apply keeps_bind; [apply keeps_initOperationsScript | intros scriptPath].
  apply keeps_bind; [apply keeps_gets | intros tempJsonPath].
  apply keeps_bind; [apply keeps_writeFileSync | intros _].
  apply keeps_run_script.
Qed.

End Keeps.

(** ** The operation script bridge *)

Lemma same_script_trans (j1 j2 j3 : Js) :
  same_script j1 j2 -> same_script j2 j3 -> same_script j1 j3.
Proof. unfold same_script. congruence. Qed.

Lemma same_session_trans (j1 j2 j3 : Js) :
  same_session j1 j2 -> same_session j2 j3 -> same_session j1 j3.
Proof. unfold same_session. intros [] []. split; congruence. Qed.

Lemma same_session_refl (j : Js) : same_session j j.
Proof. by split. Qed.

Section Bridge.

Context `{Host}.
Import GodotUtils Operations.

Lemma initOperationsScript_reuse (s : St) (p : string) :
  gdScriptPath (js s) = Some p -> Str.truthy p = true ->
  initOperationsScript s = (Return p, s).
Proof.
  intros E T. unfold initOperationsScript, bind, gets. simpl.
  by rewrite E, T.
Qed.

Lemma create_script_eq (s : St) :
  create_script s =
  let p := script_path (world s) in
  let s1 := mkSt (with_gdScriptPath (Some p) (js s)) (world s) in
  match refusal (denied (world s)) p with
  | Some code =>
      (Throw (Error ("Failed to create GDScript operations file: "
                     +:+ error_text (Node.open_error code p))), s1)
  | None => (Return p, put_file p gdScriptContent s1)
  end.
Proof.
  unfold create_script, bind, gets, modify_js, try_catch, Node.writeFileSync,
    script_path, put_file. simpl.
  destruct (refusal _ _); reflexivity.
Qed.

Lemma initOperationsScript_first (s : St) :
  Str.truthy_opt (gdScriptPath (js s)) = false ->
  initOperationsScript s = create_script s.
Proof.
  intros E. unfold initOperationsScript, bind, gets. simpl.
  destruct (gdScriptPath (js s)) as [p|]; [| reflexivity].
  simpl in E. by rewrite E.
Qed.

(** The call up to the point where the runner is invoked. *)
Lemma runGodotOperation_eq (projectPath operation : string) (params : Obj.t)
    (s s1 s2 : St) (godotPath scriptPath : string) :
  findGodotPath s = (Return (Some godotPath), s1) ->
  initOperationsScript s1 = (Return scriptPath, s2) ->
  temp_json_path (world s2) ∉ denied (world s2) ->
  runGodotOperation projectPath operation params s =
  run_script godotPath scriptPath (temp_json_path (world s2)) projectPath
    (put_file (temp_json_path (world s2))
       (JSON_stringify (JObject (operationData projectPath operation params))) s2).
Proof.
  intros F I D. unfold runGodotOperation.
  unfold bind at 1. rewrite F.
  destruct (findGodotPath_total s) as (r & s' & F' & _ & T).
  rewrite F in F'. injection F' as <- <-.
  destruct (T _ eq_refl) as [-> _]. simpl.
  unfold bind at 1. rewrite I.
  unfold bind at 1. unfold gets at 1. simpl.
  unfold bind at 1. unfold Node.writeFileSync.
  by rewrite (permitted _ _ D).
Qed.

(** [run_script] when the runner returns: one removal attempt, then the
    stderr diagnostic, then the extraction. *)
Lemma run_script_returned (godotPath scriptPath tmp projectPath : string)
    (s s4 : St) (r : CommandResult) :
  runGodotCommand godotPath ["--script"; scriptPath; tmp] (Some projectPath) s
    = (Return r, s4) ->
  run_script godotPath scriptPath tmp projectPath s =
  parse_result (stdout r)
    (if exists_in (world s4) tmp then
       if bool_decide (tmp ∈ denied (world s4))
       then log (("Failed to clean up temp file:",
                  LogError (Node.EPERM_unlink tmp)) :: stderr_log r) s4
       else log (stderr_log r)
              (mkSt (js s4) (with_fs (delete tmp (fs (world s4))) (world s4)))
     else log (("Failed to clean up temp file:",
                LogError (Node.ENOENT_unlink tmp)) :: stderr_log r) s4).
Proof.
  intros E. unfold run_script. unfold bind at 1. rewrite E.
  unfold bind at 1. unfold try_catch, Node.unlinkSync, exists_in, stderr_log, log.
  destruct (bool_decide (is_Some _)); [destruct (bool_decide (_ ∈ _)) |];
    unfold bind at 1; destruct (Str.truthy (stderr r)); simpl;
    rewrite ?app_nil_r, <- ?app_assoc; try reflexivity.
  all: destruct s4 as [[] ?]; reflexivity.
Qed.

(** [run_script] when the runner raises: the error leaves the call at once. *)
Lemma run_script_raised (godotPath scriptPath tmp projectPath : string)
    (s s4 : St) (e : JsError) :
  runGodotCommand godotPath ["--script"; scriptPath; tmp] (Some projectPath) s
    = (Throw e, s4) ->
  run_script godotPath scriptPath tmp projectPath s = (Throw e, s4).
Proof. intros E. unfold run_script. unfold bind at 1. by rewrite E. Qed.

End Bridge.

(** ** Object spread *)

Section Spread.

Lemma get_replace (k k' : string) (v : JSValue) (o : Obj.t) :
  is_Some (Obj.get k' o) ->
  Obj.get k (Obj.replace k' v o) = if String.eqb k k' then Some v else Obj.get k o.
Proof.
  induction o as [|[k0 v0] o IH]; simpl; [by intros [? ?] |].
  intros P. destruct (String.eqb k' k0) eqn:E0; simpl.
  - apply String.eqb_eq in E0 as <-. destruct (String.eqb k k'); reflexivity.
  - destruct (String.eqb k k0) eqn:E1; [| by apply IH].
    apply String.eqb_eq in E1 as <-.
    rewrite String.eqb_sym in E0. by rewrite E0.
Qed.

Lemma get_insert_index (k k' : string) (n : N) (v : JSValue) (o : Obj.t) :
  Obj.get k' o = None ->
  Obj.get k (Obj.insert_index n k' v o)
  = if String.eqb k k' then Some v else Obj.get k o.
Proof.
  induction o as [|[k0 v0] o IH]; simpl; [reflexivity |].
  destruct (String.eqb k' k0) eqn:E0; [discriminate |]. intros A.
  destruct (Obj.array_index k0) as [m|]; [destruct (m <? n)%N |]; simpl;
    try reflexivity.
  destruct (String.eqb k k0) eqn:E1; [| by apply IH].
  apply String.eqb_eq in E1 as <-.
  rewrite String.eqb_sym in E0. by rewrite E0.
Qed.

Lemma get_last (k k' : string) (v : JSValue) (o : Obj.t) :
  Obj.get k' o = None ->
  Obj.get k (o ++ [(k', v)]) = if String.eqb k k' then Some v else Obj.get k o.
Proof.
  induction o as [|[k0 v0] o IH]; simpl; [reflexivity |].
  destruct (String.eqb k' k0) eqn:E0; [discriminate |]. intros A.
  destruct (String.eqb k k0) eqn:E1; [| by apply IH].
  apply String.eqb_eq in E1 as <-.
  rewrite String.eqb_sym in E0. by rewrite E0.
Qed.

Lemma get_set (k k' : string) (v : JSValue) (o : Obj.t) :
  Obj.get k (Obj.set k' v o) = if String.eqb k k' then Some v else Obj.get k o.
Proof.
  unfold Obj.set. destruct (Obj.get k' o) as [x|] eqn:G.
  - apply get_replace. by rewrite G.
  - destruct (Obj.array_index k'); [by apply get_insert_index | by apply get_last].
Qed.

Lemma get_absent (k : string) (o : Obj.t) :
  k ∉ Obj.keys o -> Obj.get k o = None.
Proof.
  induction o as [|[k0 v0] o IH]; simpl; [reflexivity |].
  intros N. destruct (String.eqb k k0) eqn:E.
  - apply String.eqb_eq in E as <-. exfalso. apply N. left.
  - apply IH. intros I. apply N. by right.
Qed.

Lemma get_present (k : string) (o : Obj.t) :
  k ∈ Obj.keys o -> is_Some (Obj.get k o).
Proof.
  induction o as [|[k0 v0] o IH]; simpl; [by intros ?%elem_of_nil |].
  destruct (String.eqb k k0) eqn:E; [by eexists |].
  intros [->|I]%elem_of_cons; [by rewrite String.eqb_refl in E | by apply IH].
Qed.

(** A property of the spread object comes from the source when the source
    has it, and from the target otherwise. *)
Lemma get_spread (k : string) (source target : Obj.t) :
  NoDup (Obj.keys source) ->
  Obj.get k (Obj.spread target source) =
  match Obj.get k source with
  | Some v => Some v
  | None => Obj.get k target
  end.
Proof.
  unfold Obj.spread. revert target.
  induction source as [|[k0 v0] source IH]; intros target D; simpl; [reflexivity |].
  apply NoDup_cons in D as [N D]. simpl in N. rewrite (IH _ D), get_set. simpl.
  destruct (String.eqb k k0) eqn:E; [| reflexivity].
  apply String.eqb_eq in E as <-. by rewrite (get_absent _ _ N).
Qed.

Lemma keys_replace (k : string) (v : JSValue) (o : Obj.t) :
  Obj.keys (Obj.replace k v o) = Obj.keys o.
Proof.
  induction o as [|[k0 v0] o IH]; simpl; [reflexivity |].
  destruct (String.eqb k k0); simpl; [reflexivity | by rewrite IH].
Qed.

(** Where a new array index lands: inside the array indices in front. *)
Lemma keys_insert_index (n : N) (k : string) (v : JSValue) (o : Obj.t)
    (front back : list string) :
  Obj.keys o = front ++ back ->
  Forall (fun x => is_Some (Obj.array_index x)) front ->
  Forall (fun x => Obj.array_index x = None) back ->
  exists f1 f2, front = f1 ++ f2 /\
    Obj.keys (Obj.insert_index n k v o) = f1 ++ k :: f2 ++ back.
Proof.
  unfold Obj.keys. revert front.
  induction o as [|[k0 v0] o IH]; intros front E F B; simpl in *.
  - symmetry in E. apply app_eq_nil in E as [-> ->]. by exists [], [].
  - destruct front as [|x front]; simpl in E.
    + subst back. apply Forall_cons in B as [B _]. rewrite B.
      by exists [], [].
    + injection E as <- E. apply Forall_cons in F as [[m M] F]. rewrite M.
      destruct (m <? n)%N.
      * destruct (IH front E F B) as (f1 & f2 & -> & E').
        exists (k0 :: f1), f2. simpl. by rewrite E'.
      * exists [], (k0 :: front). simpl. by rewrite E.
Qed.

(** Defining a property keeps the array indices in front of the other keys,
    and the other keys in the order in which they came. *)
Lemma keys_set (k : string) (v : JSValue) (o : Obj.t) (front back : list string) :
  Obj.keys o = front ++ back ->
  Forall (fun x => is_Some (Obj.array_index x)) front ->
  Forall (fun x => Obj.array_index x = None) back ->
  exists front' extra,
    Obj.keys (Obj.set k v o) = front' ++ back ++ extra /\
    Forall (fun x => is_Some (Obj.array_index x)) front' /\
    Forall (fun x => Obj.array_index x = None) (back ++ extra) /\
    (Obj.array_index k = None -> front' = front).
Proof.
  intros E F B. unfold Obj.set. destruct (Obj.get k o).
  - exists front, []. rewrite keys_replace, app_nil_r. by repeat split.
  - destruct (Obj.array_index k) as [n|] eqn:A.
    + destruct (keys_insert_index n k v o front back E F B) as (f1 & f2 & -> & ->).
      exists (f1 ++ k :: f2), []. rewrite app_nil_r, <- app_assoc. simpl.
      repeat split; [| done | done].
      apply Forall_app in F as [F1 F2]. apply Forall_app. split; [done |].
      apply Forall_cons. split; [by rewrite A | done].
    + exists front, [k]. unfold Obj.keys in *. rewrite map_app, E, <- app_assoc.
      simpl. repeat split; [done |].
      apply Forall_app. split; [done |]. by apply Forall_cons.
Qed.

(** Spreading puts the array indices of the source in front and its other
    new keys after the keys that are already there. *)
Lemma keys_spread (source target : Obj.t) (front back : list string) :
  Obj.keys target = front ++ back ->
  Forall (fun x => is_Some (Obj.array_index x)) front ->
  Forall (fun x => Obj.array_index x = None) back ->
  exists front' extra,
    Obj.keys (Obj.spread target source) = front' ++ back ++ extra /\
    Forall (fun x => is_Some (Obj.array_index x)) front' /\
    Forall (fun x => Obj.array_index x = None) (back ++ extra) /\
    (Forall (fun x => Obj.array_index x = None) (Obj.keys source) ->
     front' = front).
Proof.
  unfold Obj.spread. revert target front back.
  induction source as [|[k0 v0] source IH]; intros target front back E F B; simpl.
  - exists front, []. rewrite app_nil_r. by repeat split.
  - destruct (keys_set k0 v0 target front back E F B) as (f1 & e1 & E1 & F1 & B1 & S1).
    destruct (IH _ _ _ E1 F1 B1) as (f2 & e2 & E2 & F2 & B2 & S2).
    exists f2, (e1 ++ e2). rewrite E2, <- !app_assoc. repeat split; [done | |].
    + by rewrite app_assoc.
    + intros [A P]%Forall_cons. by rewrite (S2 P), (S1 A).
Qed.

End Spread.

Section BridgeProperties.

Context `{Host}.
Import GodotUtils Operations.

(** C7. The request object is built from the fixed fields [operation] and
    [projectPath], written first, and the caller's [params], spread after
    them: a [params] entry named [operation] or [projectPath] replaces the
    value of the fixed field, in the object and so in the text written to the
    request file, which is the serialization of that object.  In the
    enumeration order of the object, which is the order of the serialized
    text, the two fixed keys stand in front of every other key that is not
    an array index; the keys of [params] that are array indices, and only
    those, stand before them. *)
Theorem params_override_fixed_fields (projectPath operation : string)
    (params : Obj.t) :
  NoDup (Obj.keys params) ->
  (exists indices rest,
     Obj.keys (operationData projectPath operation params)
     = indices ++ "operation" :: "projectPath" :: rest /\
     Forall (fun k => is_Some (Obj.array_index k) /\ k ∈ Obj.keys params) indices /\
     Forall (fun k => Obj.array_index k = None) rest /\
     (Forall (fun k => Obj.array_index k = None) (Obj.keys params) ->
      indices = [])) /\
  (forall v, Obj.get "operation" params = Some v ->
     Obj.get "operation" (operationData projectPath operation params) = Some v) /\
  (forall v, Obj.get "projectPath" params = Some v ->
     Obj.get "projectPath" (operationData projectPath operation params) = Some v) /\
  (forall s s1 s2 godotPath scriptPath,
     findGodotPath s = (Return (Some godotPath), s1) ->
     initOperationsScript s1 = (Return scriptPath, s2) ->
     temp_json_path (world s2) ∉ denied (world s2) ->
     runGodotOperation projectPath operation params s =
     run_script godotPath scriptPath (temp_json_path (world s2)) projectPath
       (put_file (temp_json_path (world s2))
          (JSON_stringify (JObject (operationData projectPath operation params)))
          s2)).
Proof.
  intros D. unfold operationData. split; [| repeat split].
  - destruct (keys_spread params
                [("operation", JString operation);
                 ("projectPath", JString projectPath)]
                [] ["operation"; "projectPath"])
      as (indices & rest & E & F & B & S); [done | done | by repeat constructor |].
    exists indices, rest. split; [exact E |]. split; [| split; [| exact S]].
    + apply Forall_forall. intros k I.
      pose proof (proj1 (Forall_forall _ _) F k I) as [n A]. split; [by eexists |].
      assert (is_Some (Obj.get k (Obj.spread
                [("operation", JString operation);
                 ("projectPath", JString projectPath)] params))) as [v G].
      { apply get_present. rewrite E. apply elem_of_app. by left. }
      rewrite (get_spread _ _ _ D) in G.
      destruct (Obj.get k params) as [x|] eqn:P.
      * destruct (decide (k ∈ Obj.keys params)) as [Y|N]; [exact Y |].
        by rewrite (get_absent _ _ N) in P.
      * simpl in G. destruct (String.eqb k "operation") eqn:E1.
        { apply String.eqb_eq in E1 as ->. discriminate. }
        destruct (String.eqb k "projectPath") eqn:E2; [| discriminate].
        apply String.eqb_eq in E2 as ->. discriminate.
    + by apply Forall_app in B as [_ B].
  - intros v G. by rewrite (get_spread _ _ _ D), G.
  - intros v G. by rewrite (get_spread _ _ _ D), G.
  - intros s s1 s2 godotPath scriptPath F I N.
    exact (runGodotOperation_eq _ _ _ _ _ _ _ _ F I N).
Qed.

(** Without such an entry the fixed fields stand. *)
Lemma fixed_fields_kept (projectPath operation : string) (params : Obj.t) :
  NoDup (Obj.keys params) ->
  "operation" ∉ Obj.keys params -> "projectPath" ∉ Obj.keys params ->
  Obj.get "operation" (operationData projectPath operation params)
    = Some (JString operation) /\
  Obj.get "projectPath" (operationData projectPath operation params)
    = Some (JString projectPath).
Proof.
  intros D N1 N2. unfold operationData.
  rewrite !(get_spread _ _ _ D), (get_absent _ _ N1), (get_absent _ _ N2).
  by split.
Qed.

(** The three callers of the repository use other parameter names. *)
Lemma callers_keep_fixed_fields (projectPath a b c : string) :
  Obj.get "operation" (operationData projectPath "get_scene_tree" [])
    = Some (JString "get_scene_tree") /\
  Obj.get "operation"
    (operationData projectPath "create_scene"
       [("sceneName", JString a); ("nodeType", JString b)])
    = Some (JString "create_scene") /\
  Obj.get "operation"
    (operationData projectPath "add_node"
       [("parentPath", JString a); ("nodeName", JString b); ("nodeType", JString c)])
    = Some (JString "add_node").
Proof. repeat split. Qed.

(** C3, as the code has it. When the runner returns a result, for a zero
    or a non-zero exit status, the request file is removed once, before the
    result is extracted: if the removal succeeds the file no longer exists;
    if it fails, the failure is logged and the call goes on to the
    extraction as it would have otherwise.  The outcome of the call is the
    outcome of the extraction in both cases. *)
Theorem temp_file_removed_once_runner_returns (projectPath operation : string)
    (params : Obj.t) (s s1 s2 s4 : St) (godotPath scriptPath : string)
    (r : CommandResult) :
  findGodotPath s = (Return (Some godotPath), s1) ->
  initOperationsScript s1 = (Return scriptPath, s2) ->
  temp_json_path (world s2) ∉ denied (world s2) ->
  runGodotCommand godotPath ["--script"; scriptPath; temp_json_path (world s2)]
    (Some projectPath)
    (put_file (temp_json_path (world s2))
       (JSON_stringify (JObject (operationData projectPath operation params))) s2)
    = (Return r, s4) ->
  exists s',
    runGodotOperation projectPath operation params s
      = parse_result (stdout r) s' /\
    (is_Some (fs (world s4) !! temp_json_path (world s2)) ->
     temp_json_path (world s2) ∉ denied (world s4) ->
     fs (world s') = delete (temp_json_path (world s2)) (fs (world s4)) /\
     fs (world s') !! temp_json_path (world s2) = None /\
     console (js s') = console (js s4) ++ stderr_log r) /\
    (fs (world s4) !! temp_json_path (world s2) = None \/
     temp_json_path (world s2) ∈ denied (world s4) ->
     world s' = world s4 /\
     exists e,
       console (js s') =
       console (js s4) ++ ("Failed to clean up temp file:", LogError e)
                          :: stderr_log r).
Proof.
  intros F I D E.
  rewrite (runGodotOperation_eq _ _ _ _ _ _ _ _ F I D).
  rewrite (run_script_returned _ _ _ _ _ _ _ E).
  set (tmp := temp_json_path (world s2)) in *.
  eexists. split; [reflexivity |]. unfold exists_in.
  destruct (decide (is_Some (fs (world s4) !! tmp))) as [Y|N].
  - rewrite (bool_decide_eq_true_2 _ Y).
    destruct (decide (tmp ∈ denied (world s4))) as [Y'|N'].
    + rewrite (bool_decide_eq_true_2 _ Y'). split; [done |].
      intros _. split; [reflexivity |]. eexists. reflexivity.
    + rewrite (bool_decide_eq_false_2 _ N'). split.
      * intros _ _. simpl. split; [reflexivity |]. split; [| reflexivity].
        apply lookup_delete_eq.
      * intros [E0|Y']; [| done]. rewrite E0 in Y. by destruct Y.
  - rewrite (bool_decide_eq_false_2 _ N). split; [done |].
    intros _. split; [reflexivity |]. eexists. reflexivity.
Qed.

(** When the runner raises, its error leaves the call as it is, and so does
    the state the runner ended in: nothing is removed. *)
Lemma runner_error_leaves_the_call (projectPath operation : string)
    (params : Obj.t) (s s1 s2 s4 : St) (godotPath scriptPath : string)
    (e : JsError) :
  findGodotPath s = (Return (Some godotPath), s1) ->
  initOperationsScript s1 = (Return scriptPath, s2) ->
  temp_json_path (world s2) ∉ denied (world s2) ->
  runGodotCommand godotPath ["--script"; scriptPath; temp_json_path (world s2)]
    (Some projectPath)
    (put_file (temp_json_path (world s2))
       (JSON_stringify (JObject (operationData projectPath operation params))) s2)
    = (Throw e, s4) ->
  runGodotOperation projectPath operation params s = (Throw e, s4).
Proof.
  intros F I D E.
  rewrite (runGodotOperation_eq _ _ _ _ _ _ _ _ F I D).
  by apply run_script_raised.
Qed.

End BridgeProperties.

(** ** The session: one slot for the running project *)

Section Session.

Context `{Host}.
Import GodotUtils Commands.

Lemma filter_seq_none (P : nat -> bool) (a n : nat) :
  (forall i, a <= i < a + n -> P i = false) ->
  List.filter P (seq a n) = [].
Proof.
  revert a. induction n as [|n IH]; intros a HP; simpl; [reflexivity |].
  rewrite (HP a) by lia. apply IH. intros i Hi. apply HP. lia.
Qed.

Lemma filter_seq_one (P : nat -> bool) (a n pid : nat) :
  a <= pid < a + n ->
  (forall i, a <= i < a + n -> (P i = true <-> i = pid)) ->
  List.filter P (seq a n) = [pid].
Proof.
  revert a. induction n as [|n IH]; intros a Hpid HP; simpl; [lia |].
  destruct (decide (a = pid)) as [->|Hne].
  - rewrite (proj2 (HP pid ltac:(lia)) eq_refl). f_equal.
    apply filter_seq_none. intros i Hi.
    destruct (P i) eqn:E; [| reflexivity].
    apply HP in E; lia.
  - destruct (P a) eqn:E; [apply HP in E; lia |].
    apply IH; [lia |]. intros i Hi. apply HP. lia.
Qed.

(** Under the invariant, the children still running are the handles held. *)
Lemma session_ok_running (j : Js) :
  session_ok j -> running j = handles j.
Proof.
  intros [Hk Hp]. unfold running, handles.
  destruct (godotProcess j) as [pid|] eqn:G; simpl.
  - destruct (Hp pid eq_refl) as [c Hc].
    apply filter_seq_one.
    + apply lookup_lt_Some in Hc. lia.
    + intros i Hi. destruct (children j !! i) as [d|] eqn:D.
      * rewrite negb_true_iff, (Hk i d D). split; congruence.
      * apply lookup_ge_None in D. lia.
  - apply filter_seq_none. intros i Hi.
    destruct (children j !! i) as [d|] eqn:D; [| reflexivity].
    rewrite negb_false_iff. destruct (child_killed d) eqn:K; [reflexivity |].
    by apply (Hk i d D) in K.
Qed.

Lemma session_ok_start : session_ok js_start.
Proof. split; [intros i c D; destruct i; discriminate | intros pid; discriminate]. Qed.

Lemma session_ok_same (j j' : Js) :
  same_session j j' -> session_ok j -> session_ok j'.
Proof. intros [Hc Hg] [Hk Hp]. unfold session_ok. rewrite Hc, Hg. by split. Qed.

Lemma session_ok_stopped (j : Js) :
  session_ok j -> session_ok (stopped j) /\ running (stopped j) = [].
Proof.
  intros Hj. assert (session_ok (stopped j)) as Hs.
  { unfold stopped.
    destruct (godotProcess j) as [pid|] eqn:G; [| exact Hj].
    destruct Hj as [Hk Hp]. split; simpl; [| discriminate].
    intros i c. destruct (decide (i = pid)) as [->|Hne].
    - rewrite list_lookup_alter_eq. destruct (children j !! pid); simpl; [| discriminate].
      intros [= <-]. simpl. split; discriminate.
    - rewrite list_lookup_alter_ne by congruence. intros D.
      split; [| discriminate]. intros K. apply (Hk i c D) in K. congruence. }
  split; [exact Hs |]. rewrite (session_ok_running _ Hs).
  unfold handles, stopped. by destruct (godotProcess j) eqn:G; [| rewrite G].
Qed.

Lemma session_ok_started (godotPath projectPath : string) (j : Js) :
  session_ok j -> godotProcess j = None ->
  session_ok (started godotPath projectPath j).
Proof.
  intros [Hk Hp] G. split; simpl.
  - intros i c D. destruct (decide (i < length (children j))) as [Hlt|Hge].
    + rewrite lookup_app_l in D by exact Hlt.
      split; [| intros [= E]; lia].
      intros K. apply (Hk i c D) in K. congruence.
    + rewrite lookup_app_r in D by lia.
      destruct (i - length (children j)) as [|k] eqn:E; simpl in D; [| done].
      injection D as <-. simpl. split; [intros _; f_equal; lia | reflexivity].
  - intros pid [= <-]. rewrite lookup_app_r by lia.
    rewrite Nat.sub_diag. by eexists.
Qed.

Lemma session_ok_data (pid : nat) (pipe : Pipe) (chunk : string) (s : St) :
  session_ok (js s) -> session_ok (js (Node.on_data pid pipe chunk s)).
Proof.
  intros [Hk Hp]. split; simpl.
  - intros i c. destruct (decide (i = pid)) as [->|Hne].
    + rewrite list_lookup_alter_eq. destruct (children (js s) !! pid) as [d|] eqn:D;
        simpl; [| discriminate].
      intros [= <-]. simpl. exact (Hk pid d D).
    + rewrite list_lookup_alter_ne by congruence. apply Hk.
  - intros q G. destruct (Hp q G) as [c D].
    destruct (decide (q = pid)) as [->|Hne].
    + rewrite list_lookup_alter_eq, D. by eexists.
    + rewrite list_lookup_alter_ne by congruence. by eexists.
Qed.

(** A chunk from either pipe goes to the end of the one buffer. *)
Lemma on_data_appends (pid : nat) (pipe : Pipe) (chunk : string) (s : St)
    (c : Child) :
  children (js s) !! pid = Some c ->
  child_output <$> children (js (Node.on_data pid pipe chunk s)) !! pid
  = Some (child_output c +:+ chunk).
Proof. intros D. simpl. by rewrite list_lookup_alter_eq, D. Qed.

Lemma stopProject_eq (s : St) :
  stopProject s =
  (Return (match godotProcess (js s) with
           | Some _ => "Stopped running Godot project"
           | None => "No Godot project is currently running"
           end),
   mkSt (stopped (js s)) (world s)).
Proof.
  unfold stopProject, stopped, bind, gets. simpl.
  destruct (godotProcess (js s)); [reflexivity | by destruct s].
Qed.

Lemma getDebugOutput_eq (s : St) :
  getDebugOutput s =
  (Return (match godotProcess (js s) with
           | Some _ => "Debug output would be shown here"
           | None => "No Godot project is currently running"
           end), s).
Proof.
  unfold getDebugOutput, bind, gets. simpl.
  destruct (godotProcess (js s)); reflexivity.
Qed.

Lemma isGodotProject_eq (projectPath : string) (s : St) :
  isGodotProject projectPath s =
  (Return (exists_in (world s) (path_join projectPath "project.godot")), s).
Proof. reflexivity. Qed.

(** [runProject] in one piece: resolve the executable, check the project,
    stop what runs, spawn, keep the handle. *)
Lemma runProject_eq (projectPath : string) (s : St) :
  runProject projectPath s =
  match initGodot s with
  | (Return godotPath, s1) =>
      if exists_in (world s1) (path_join projectPath "project.godot")
      then (Return ("Running Godot project: " +:+ projectPath),
            mkSt (started godotPath projectPath (stopped (js s1))) (world s1))
      else (Throw (Error ("Invalid Godot project path: " +:+ projectPath)), s1)
  | (Throw e, s1) => (Throw e, s1)
  end.
Proof.
  unfold runProject. unfold bind at 1.
  destruct (initGodot s) as [[godotPath|e] s1]; [| reflexivity].
  unfold bind at 1. rewrite isGodotProject_eq.
  destruct (exists_in _ _); simpl; [| reflexivity].
  unfold bind at 1. unfold gets at 1. simpl.
  unfold bind at 1. unfold stopped.
  destruct (godotProcess (js s1)) as [pid|] eqn:G.
  - unfold bind at 1. rewrite stopProject_eq. unfold stopped. rewrite G. reflexivity.
  - reflexivity.
Qed.

End Session.

Ltac same_session :=
  first [exact same_session_refl | exact same_session_trans | by split].

Ltac same_script :=
  first [by intros | unfold same_script; congruence].

Section Reachable.

Context `{Host}.
Import GodotUtils Operations Commands.

Lemma keeps_same_session_step (e : Event) (s : St) :
  match e with
  | RunProject _ | StopProject | Data _ _ _ => True
  | _ => same_session (js s) (js (step e s))
  end.
Proof.
  destruct e; simpl; try exact I.
  - apply keeps_getDebugOutput; same_session.
  - apply keeps_getGodotVersion; same_session.
  - apply keeps_runGodotOperation; same_session.
Qed.

Lemma godotProcess_stopped (j : Js) : godotProcess (stopped j) = None.
Proof. unfold stopped. by destruct (godotProcess j) eqn:G. Qed.

Lemma step_session_ok (e : Event) (s : St) :
  session_ok (js s) -> session_ok (js (step e s)).
Proof.
  intros Hs. pose proof (keeps_same_session_step e s) as K.
  destruct e; simpl in *; try (eapply session_ok_same; [exact K | exact Hs]).
  - rewrite runProject_eq.
    assert (same_session (js s) (js (snd (initGodot s)))) as Ki
      by (apply keeps_initGodot; same_session).
    destruct (initGodot s) as [[godotPath|e] s1]; simpl in Ki.
    + pose proof (session_ok_same _ _ Ki Hs) as H1.
      destruct (exists_in _ _); simpl; [| exact H1].
      apply session_ok_started; [by apply session_ok_stopped |].
      apply godotProcess_stopped.
    + exact (session_ok_same _ _ Ki Hs).
  - rewrite stopProject_eq. simpl. by apply session_ok_stopped.
  - exact (session_ok_data pid pipe chunk s Hs).
Qed.

Lemma run_events_session_ok (evs : list Event) (s : St) :
  session_ok (js s) -> session_ok (js (run_events evs s)).
Proof.
  revert s. induction evs as [|e evs IH]; intros s Hs; simpl; [exact Hs |].
  apply IH. by apply step_session_ok.
Qed.

Lemma runGodotOperation_script (projectPath operation : string) (params : Obj.t)
    (s : St) (p : string) :
  gdScriptPath (js s) = Some p -> Str.truthy p = true ->
  gdScriptPath (js (snd (runGodotOperation projectPath operation params s))) = Some p.
Proof.
  intros G T. unfold runGodotOperation. unfold bind at 1.
  destruct (findGodotPath_total s) as (r & s1 & F & J & _). rewrite F.
  destruct r as [godotPath|]; simpl; [| by rewrite J].
  destruct (Str.truthy godotPath); simpl; [| by rewrite J].
  unfold bind at 1.
  rewrite (initOperationsScript_reuse s1 p) by (by rewrite ?J).
  rewrite <- G, <- J.
  apply (keeps_bind same_script); [same_script | |].
  - apply keeps_gets; same_script.
  - intros tmp. apply (keeps_bind same_script); [same_script | |].
    + apply keeps_writeFileSync; same_script.
    + intros _. apply keeps_run_script; same_script.
Qed.

Lemma step_script (e : Event) (s : St) (p : string) :
  gdScriptPath (js s) = Some p -> Str.truthy p = true ->
  gdScriptPath (js (step e s)) = Some p.
Proof.
  intros G T. destruct e; simpl.
  - rewrite <- G. apply (keeps_runProject same_script); same_script.
  - rewrite <- G. apply (keeps_stopProject same_script); same_script.
  - rewrite <- G. apply (keeps_getDebugOutput same_script); same_script.
  - rewrite <- G. apply (keeps_getGodotVersion same_script); same_script.
  - by apply runGodotOperation_script.
  - exact G.
Qed.

Lemma run_events_script (evs : list Event) (s : St) (p : string) :
  gdScriptPath (js s) = Some p -> Str.truthy p = true ->
  gdScriptPath (js (run_events evs s)) = Some p.
Proof.
  revert s. induction evs as [|e evs IH]; intros s G T; simpl; [exact G |].
  apply IH; [by apply step_script | exact T].
Qed.

(** If the first write is refused, the call raises, yet the variable is
    already set: the next call returns the path of a file that was never
    written. *)
Remark script_path_cached_before_the_write (s : St) :
  Str.truthy_opt (gdScriptPath (js s)) = false ->
  script_path (world s) ∈ denied (world s) ->
  exists e s1,
    initOperationsScript s = (Throw e, s1) /\
    world s1 = world s /\
    initOperationsScript s1 = (Return (script_path (world s)), s1).
Proof.
  intros G D. rewrite (initOperationsScript_first _ G), create_script_eq. simpl.
  destruct D as [code ->].
  eexists _, _. split; [reflexivity |]. split; [reflexivity |].
  apply initOperationsScript_reuse; [reflexivity | apply path_join_truthy].
Qed.

(** C9. The first call of [initOperationsScript] writes the script at the
    fixed path [godot_operations.gd] of the temporary directory and
    returns that path.  From then on, whatever tool invocations and pipe
    events happen in between, a call returns the same path and changes
    nothing: no second write, no change of the content. *)
Theorem bridge_script_materialized_once (s : St) :
  Str.truthy_opt (gdScriptPath (js s)) = false ->
  script_path (world s) ∉ denied (world s) ->
  exists s1,
    initOperationsScript s = (Return (script_path (world s)), s1) /\
    script_path (world s) = path_join (os_tmpdir (world s)) "godot_operations.gd" /\
    fs (world s1) = <[script_path (world s) := gdScriptContent]> (fs (world s)) /\
    forall evs,
      initOperationsScript (run_events evs s1)
      = (Return (script_path (world s)), run_events evs s1).
Proof.
  intros G D. rewrite (initOperationsScript_first _ G), create_script_eq. simpl.
  rewrite (permitted _ _ D).
  eexists. split; [reflexivity |]. split; [reflexivity |]. split; [reflexivity |].
  intros evs. apply initOperationsScript_reuse; [| apply path_join_truthy].
  apply run_events_script; [reflexivity | apply path_join_truthy].
Qed.








(** A turn ends where the call waits: two statements are enough. *)
Lemma turn_waits (pt : Steps.Point) (s : St) :
  Steps.waits (fst (Steps.turn pt s)) = true.
Proof.
  unfold Steps.turn.
  destruct pt as [p|g p|g p ok|g p|g p|g p c|r]; simpl; try reflexivity.
  - by destruct (initGodot s) as [[g|e] s1].
  - destruct ok; simpl; [| reflexivity].
    by destruct (godotProcess (js s)).
Qed.


End Reachable.

(** * The model on concrete machines *)

Section Scenarios.

Import GodotUtils Operations Commands.

(** The extractor skips the banner and returns the object. *)
Example extract_after_banner (s : St) :
  parse_result (H := host_success) demo_stdout s =
  (Return (JObject [("success", JBool true); ("message", JString "ok")]), s).
Proof. reflexivity. Qed.

(** A closing brace in trailing noise ends up inside the span, and the
    object before it is lost. *)
Example extract_with_trailing_brace (s : St) :
  let text := "{" +:+ Str.quoted "a" +:+ ":1} done }" in
  Regex.brace_match text = Some text /\
  parse_result (H := host_success) text s = (Throw (parse_failure text), s).
Proof. split; reflexivity. Qed.

(** Malformed JSON between braces gives the error of the same form as no
    JSON at all. *)
Example extract_malformed (s : St) :
  parse_result (H := host_success) "{oops}" s =
  (Throw (Error "Failed to parse GDScript operation result: {oops}"), s).
Proof. reflexivity. Qed.

(** Override pointing nowhere, a platform without static list, nothing on
    the path: not found. *)
Example locate_not_found :
  let w := mkWorld ∅ ∅ (Some "/nowhere/godot") "freebsd" "/tmp" 0 in
  fst (findGodotPath (H := host_nothing_on_path) (mkSt js_start w)) = Return None.
Proof. reflexivity. Qed.

(** [stopProject] with nothing running answers and raises nothing. *)
Example stop_while_idle :
  stopProject demo_state
  = (Return "No Godot project is currently running", demo_state).
Proof. reflexivity. Qed.

Example request_text :
  Json.stringify
    (JObject (operationData "/proj" "create_scene"
                [("sceneName", JString "Main"); ("operation", JString "quit")]))
  = "{" +:+ Str.quoted "operation" +:+ ":" +:+ Str.quoted "quit" +:+ ","
    +:+ Str.quoted "projectPath" +:+ ":" +:+ Str.quoted "/proj" +:+ ","
    +:+ Str.quoted "sceneName" +:+ ":" +:+ Str.quoted "Main" +:+ "}".
Proof. reflexivity. Qed.

(** A parameter named by an array index is enumerated, and so written,
    before the fixed fields. *)
Example request_text_with_array_index :
  Obj.keys (operationData "/proj" "add_node"
              [("b", JString "x"); ("10", JString "y"); ("2", JString "z")])
  = ["2"; "10"; "operation"; "projectPath"; "b"] /\
  Json.stringify
    (JObject (operationData "/proj" "add_node"
                [("b", JString "x"); ("1", JString "y")]))
  = "{" +:+ Str.quoted "1" +:+ ":" +:+ Str.quoted "y" +:+ ","
    +:+ Str.quoted "operation" +:+ ":" +:+ Str.quoted "add_node" +:+ ","
    +:+ Str.quoted "projectPath" +:+ ":" +:+ Str.quoted "/proj" +:+ ","
    +:+ Str.quoted "b" +:+ ":" +:+ Str.quoted "x" +:+ "}".
Proof. split; reflexivity. Qed.

End Scenarios.

(** Decidable facts about concrete data, by evaluation. *)
Ltac decided := refine (bool_decide_unpack _ _); vm_compute; exact I.

Section Counterexamples.

Import GodotUtils Operations Commands.

(** C1, as the specification words it, fails: a child that runs, prints
    nothing and exits with code 1 makes the runner raise. *)
Lemma runner_raises_on_silent_exit :
  execAsync (Host := host_silent_exit)
    (command_line "/opt/godot" ["--version"]) None demo_world
    = (inl (silent_exit (command_line "/opt/godot" ["--version"])), demo_world) /\
  exit_code (silent_exit (command_line "/opt/godot" ["--version"])) = Some 1%Z /\
  runGodotCommand (H := host_silent_exit) "/opt/godot" ["--version"] None demo_state
    = (Throw (ExecError (silent_exit (command_line "/opt/godot" ["--version"]))),
       demo_state).
Proof. repeat split. Qed.

(** C3, as the specification words it, fails twice.  When the runner
    raises, the call raises with it and the request file is still there.
    When the removal is refused, the call returns its result, the refusal
    is logged, and the request file is still there. *)
Lemma request_file_left_behind :
  (let end_ := runGodotOperation (H := host_spawn_failure)
                 "/proj" "get_scene_tree" [] demo_state in
   fst end_ = Throw (ExecError spawn_failure) /\
   is_Some (fs (world (snd end_)) !! demo_request_path)) /\
  (let end_ := runGodotOperation (H := host_locked_request)
                 "/proj" "get_scene_tree" [] demo_state in
   fst end_ = Return (JObject [("success", JBool true); ("message", JString "ok")]) /\
   is_Some (fs (world (snd end_)) !! demo_request_path) /\
   console (js (snd end_))
     = [("Failed to clean up temp file:",
         LogError (Node.EPERM_unlink demo_request_path))]).
Proof.
  split; [split | split; [| split]]; try reflexivity.
  - vm_compute. by eexists.
  - vm_compute. by eexists.
Qed.


(** The same two calls, one after the other, leave one child running. *)
Example runs_one_after_the_other :
  running (js (snd (Steps.interleave (H := host_success) [0; 0; 0; 0; 1; 1; 1; 1]
                      [Steps.Entered "/proj"; Steps.Entered "/proj"]
                      running_session))) = [2].
Proof. reflexivity. Qed.

(** C4: the code does not return the buffer. After a run has started and
    three chunks have arrived on the two pipes, the [output] variable of
    the child holds them in arrival order, and [getDebugOutput] answers with
    its fixed text. *)
Theorem peek_returns_fixed_text_not_buffer :
  let s := run_events (H := host_success)
             [RunProject "/proj"; Data 0 Stdout "Hello "; Data 0 Stderr "oops ";
              Data 0 Stdout "world"] demo_state in
  godotProcess (js s) = Some 0 /\
  child_output <$> children (js s) !! 0 = Some "Hello oops world" /\
  getDebugOutput s = (Return "Debug output would be shown here", s).
Proof. repeat split. Qed.

End Counterexamples.

Section Witnesses.

Import GodotUtils Operations Commands.

Lemma params_override_fixed_fields_witness :
  Obj.get "operation"
    (operationData "/proj" "create_scene"
       [("sceneName", JString "Main"); ("operation", JString "quit")])
  = Some (JString "quit").
Proof.
  refine (proj1 (proj2 (params_override_fixed_fields (H := host_success)
            "/proj" "create_scene"
            [("sceneName", JString "Main"); ("operation", JString "quit")] _))
            (JString "quit") _).
  - decided.
  - reflexivity.
Defined.

Lemma locator_falls_through_witness :
  let w := mkWorld {[ "/usr/local/bin/godot" := "ELF" ]} ∅
                   (Some "/nowhere/godot") "linux" "/tmp" 0 in
  findGodotPath (H := host_nothing_on_path) (mkSt js_start w)
  = (Return (Some "/usr/local/bin/godot"), mkSt js_start w).
Proof.
  intros w.
  refine (eq_trans (proj1 (locator_falls_through_missing_override
            (H := host_nothing_on_path) (mkSt js_start w) "/nowhere/godot" _ _)) _).
  - reflexivity.
  - reflexivity.
  - reflexivity.
Defined.

Lemma bridge_script_materialized_once_witness :
  exists s1,
    initOperationsScript (H := host_success) demo_state
      = (Return "/tmp/godot_operations.gd", s1) /\
    initOperationsScript (H := host_success)
      (run_events (H := host_success)
         [Operation "/proj" "get_scene_tree" []; RunProject "/proj"] s1)
      = (Return "/tmp/godot_operations.gd",
         run_events (H := host_success)
           [Operation "/proj" "get_scene_tree" []; RunProject "/proj"] s1).
Proof.
  destruct (bridge_script_materialized_once (H := host_success) demo_state)
    as (s1 & E & _ & _ & R).
  - reflexivity.
  - decided.
  - exists s1. split; [exact E | apply R].
Defined.


Lemma temp_file_removed_witness :
  exists s',
    runGodotOperation (H := host_success) "/proj" "get_scene_tree" [] demo_state
      = parse_result (H := host_success) demo_stdout s' /\
    fs (world s') !! demo_request_path = None.
Proof.
  pose (s2 := snd (initOperationsScript (H := host_success) demo_state)).
  pose (s3 := put_file demo_request_path
                (Json.stringify (JObject (operationData "/proj" "get_scene_tree" []))) s2).
  destruct (temp_file_removed_once_runner_returns (H := host_success)
              "/proj" "get_scene_tree" [] demo_state demo_state s2 s3
              "/opt/godot" "/tmp/godot_operations.gd"
              (mkCommandResult demo_stdout ""))
    as (s' & E & Hrm & _).
  - reflexivity.
  - reflexivity.
  - decided.
  - reflexivity.
  - exists s'. split; [exact E |].
    apply Hrm; [vm_compute; by eexists | decided].
Defined.

End Witnesses.

(** * Further properties of the code *)

(** ** The locator: order of the strategies *)

Section LocatorOrder.

Context `{Host}.
Import GodotUtils.

(** X1. The strategies are tried in order and the first hit wins: an
    override that is set and exists is returned, whatever the static list
    holds; failing that, the first existing path of the static list of the
    platform.  In both cases, and on Windows in all cases, no shell command
    is run: the state is left as it was.  An empty override counts as
    unset.  The locator never assigns a variable of the server, and a path
    it returns is not the empty string. *)
Theorem locator_first_hit_wins (s : St) :
  (forall p, env_GODOT_PATH (world s) = Some p -> Str.truthy p = true ->
             is_Some (fs (world s) !! p) ->
             findGodotPath s = (Return (Some p), s)) /\
  (forall q,
     exists_in (world s) (default "" (env_GODOT_PATH (world s))) = false ->
     List.find (exists_in (world s))
               (default [] (GODOT_PATHS (os_platform (world s)))) = Some q ->
     findGodotPath s = (Return (Some q), s)) /\
  (os_platform (world s) = "win32" -> snd (findGodotPath s) = s) /\
  (env_GODOT_PATH (world s) = Some "" -> findGodotPath s = static_then_which s) /\
  js (snd (findGodotPath s)) = js s /\
  fst (findGodotPath s) <> Return (Some "").
Proof.
  repeat split.
  - intros p E T X. rewrite findGodotPath_eq, E. simpl. rewrite T. unfold exists_in.
    by rewrite (bool_decide_eq_true_2 _ X).
  - intros q X F. rewrite findGodotPath_eq, X, andb_false_r.
    unfold static_then_which. by rewrite F.
  - intros W. rewrite findGodotPath_eq.
    destruct (Str.truthy_opt _ && _); [reflexivity |].
    unfold static_then_which. rewrite W.
    by destruct (List.find _ _).
  - intros E. by rewrite findGodotPath_eq, E.
  - destruct (findGodotPath_total s) as (r & s' & E & J & _). by rewrite E.
  - destruct (findGodotPath_total s) as (r & s' & E & _ & T). rewrite E. simpl.
    intros [= ->]. by destruct (T "" eq_refl) as [? _].
Qed.

End LocatorOrder.

(** ** The cached executable path *)

Section GodotPathCache.

Context `{Host} {D : Directories}.
Import GodotUtils Commands Projects.

Lemma initGodot_cached (s : St) (p : string) :
  godotPath (js s) = Some p -> Str.truthy p = true ->
  initGodot s = (Return p, s).
Proof. intros G T. unfold initGodot, bind, gets. simpl. by rewrite G, T. Qed.

Lemma initGodot_fresh (s : St) :
  Str.truthy_opt (godotPath (js s)) = false ->
  initGodot s = resolve_godot s.
Proof.
  intros G. unfold initGodot, bind, gets. simpl.
  destruct (godotPath (js s)) as [p|]; [| reflexivity]. simpl in G. by rewrite G.
Qed.

Lemma resolve_godot_eq (s : St) :
  resolve_godot s =
  match findGodotPath s with
  | (Return (Some q), s1) =>
      (Return q, mkSt (with_godotPath (Some q) (js s1)) (world s1))
  | (Return None, s1) =>
      (Throw (Error not_found_message),
       mkSt (with_godotPath None (js s1)) (world s1))
  | (Throw e, s1) => (Throw e, s1)
  end.
Proof.
  unfold resolve_godot. unfold bind at 1.
  destruct (findGodotPath_total s) as (r & s1 & E & _ & T). rewrite E.
  destruct r as [q|]; [| reflexivity].
  destruct (T q eq_refl) as [Tq _].
  unfold bind, modify_js. simpl. by rewrite Tq.
Qed.

Lemma initGodot_returned (s s1 : St) (p : string) :
  initGodot s = (Return p, s1) ->
  godotPath (js s1) = Some p /\ Str.truthy p = true.
Proof.
  unfold initGodot, bind, gets. simpl.
  assert (resolve_godot s = (Return p, s1) ->
          godotPath (js s1) = Some p /\ Str.truthy p = true) as R.
  { rewrite resolve_godot_eq.
    destruct (findGodotPath_total s) as (r & s2 & E & _ & T). rewrite E.
    destruct r as [q|]; [| discriminate]. intros [= <- <-].
    split; [reflexivity | by destruct (T q eq_refl)]. }
  destruct (godotPath (js s)) as [q|] eqn:G; [| exact R].
  destruct (Str.truthy q) eqn:T; [| exact R].
  intros [= <- <-]. by split.
Qed.

Section Stays.

Variable p : string.
Hypothesis p_truthy : Str.truthy p = true.

Local Abbreviation R := (godotPath_stays p).

Lemma stays_refl (j : Js) : R j j.
Proof. by intros G. Qed.

Lemma stays_trans (j1 j2 j3 : Js) : R j1 j2 -> R j2 j3 -> R j1 j3.
Proof. unfold R, godotPath_stays. auto. Qed.

Lemma stays_initGodot : keeps R initGodot.
Proof.
  intros s G. by rewrite (initGodot_cached s p G p_truthy).
Qed.

Ltac stays := first [exact stays_refl | exact stays_trans | by intros ? ? G].

Lemma stays_runProject (projectPath : string) : keeps R (runProject projectPath).
Proof.
  apply keeps_bind; [stays.. | apply stays_initGodot | intros g].
  apply keeps_bind; [stays.. | apply keeps_isGodotProject; stays | intros ok].
  apply keeps_if; [apply keeps_throw; stays |].
  apply keeps_bind; [stays.. | apply keeps_gets; stays | intros cur].
  apply keeps_bind; [stays.. | |].
  { destruct cur; [| apply keeps_ret; stays].
    apply keeps_bind; [stays.. | apply keeps_stopProject; stays |].
    intros; apply keeps_ret; stays. }
  intros _. apply keeps_bind; [stays.. | by intros s G |].
  intros pid. apply keeps_bind; [stays.. | | intros; apply keeps_ret; stays].
  apply keeps_modify_js. by intros j G.
Qed.

Lemma stays_getGodotVersion : keeps R getGodotVersion.
Proof.
  apply keeps_bind; [stays.. | apply stays_initGodot | intros g].
  apply keeps_bind; [stays.. | apply keeps_runGodotCommand; stays |].
  intros; apply keeps_ret; stays.
Qed.

Lemma stays_launchEditor (projectPath : string) : keeps R (launchEditor projectPath).
Proof.
  apply keeps_bind; [stays.. | apply stays_initGodot | intros g].
  apply keeps_bind; [stays.. | apply keeps_isGodotProject; stays | intros ok].
  apply keeps_if; [apply keeps_throw; stays |].
  apply keeps_bind; [stays.. | by intros s G | intros; apply keeps_ret; stays].
Qed.

Lemma stays_mkdir (q : string) : keeps R (NodeDirs.mkdir q).
Proof.
  intros s. unfold NodeDirs.mkdir. destruct (mkdirSync _ _); apply stays_refl.
Qed.

Lemma stays_createProject (parent name template : string) :
  keeps R (createProject parent name template).
Proof.
  apply keeps_bind; [stays.. | apply stays_initGodot | intros g].
  apply keeps_bind; [stays.. | apply keeps_existsSync; stays | intros taken].
  apply keeps_if; [apply keeps_throw; stays |].
  repeat (apply keeps_bind; [stays.. | apply stays_mkdir | intros _]).
  repeat (apply keeps_bind; [stays.. | apply keeps_writeFileSync; stays | intros _]).
  apply keeps_bind; [stays.. | | intros; apply keeps_ret; stays].
  apply keeps_if; [apply keeps_writeFileSync; stays | apply keeps_ret; stays].
Qed.

Lemma stays_collect (dir : string) (entries : list Dirent) (acc : list string) :
  keeps R (collect_projects dir entries acc).
Proof.
  revert acc. induction entries as [|e rest IH]; intros acc; simpl;
    [apply keeps_ret; stays |].
  destruct (dirent_isDirectory e); [| apply IH].
  apply keeps_bind; [stays.. | apply keeps_isGodotProject; stays |].
  intros []; apply IH.
Qed.

Lemma stays_listProjects (dir : string) : keeps R (listProjects dir).
Proof.
  apply keeps_try_catch; [stays.. | | intros; apply keeps_throw; stays].
  apply keeps_bind; [stays.. | | intros; apply stays_collect].
  intros s. unfold NodeDirs.readdirTyped. destruct (readdir _ _); apply stays_refl.
Qed.

Lemma stays_step_call (c : Call) (s : St) : R (js s) (js (step_call c s)).
Proof.
  destruct c as [e| | |]; simpl.
  - destruct e; simpl.
    + apply stays_runProject.
    + apply keeps_stopProject; stays.
    + apply keeps_getDebugOutput; stays.
    + apply stays_getGodotVersion.
    + apply keeps_runGodotOperation; stays.
    + by intros G.
  - apply stays_launchEditor.
  - apply stays_listProjects.
  - apply stays_createProject.
Qed.

Lemma stays_run_calls (calls : list Call) (s : St) :
  R (js s) (js (run_calls calls s)).
Proof.
  revert s. induction calls as [|c calls IH]; intros s; simpl; [apply stays_refl |].
  eapply stays_trans; [apply stays_step_call | apply IH].
Qed.

End Stays.

(** X2. Once [initGodot] has returned a path, every later call returns that
    same path without searching again and without changing anything,
    whatever tool invocations and pipe events happen in between and whatever
    becomes of the file or of the environment: the path is resolved once per
    process and never validated again. *)
Theorem executable_path_resolved_once (s s1 : St) (p : string) :
  initGodot s = (Return p, s1) ->
  forall calls,
    initGodot (run_calls calls s1) = (Return p, run_calls calls s1).
Proof.
  intros E calls. destruct (initGodot_returned _ _ _ E) as [G T].
  apply initGodot_cached; [| exact T].
  by apply (stays_run_calls p T calls s1).
Qed.

Lemma initGodot_not_found (s s1 : St) :
  Str.truthy_opt (godotPath (js s)) = false ->
  findGodotPath s = (Return None, s1) ->
  initGodot s
  = (Throw (Error not_found_message),
     mkSt (with_godotPath None (js s)) (world s1)).
Proof.
  intros G F. rewrite (initGodot_fresh _ G), resolve_godot_eq, F.
  destruct (findGodotPath_total s) as (r & s' & E & J & _).
  rewrite F in E. injection E as <- <-. by rewrite J.
Qed.

(** X3. When the locator finds nothing, [initGodot] raises the error that
    tells the user to set [GODOT_PATH] and leaves the variable unset: the
    failure is not cached, and a later call searches again and succeeds as
    soon as the locator finds the executable. *)
Theorem missing_executable_is_searched_again (s s1 : St) :
  Str.truthy_opt (godotPath (js s)) = false ->
  findGodotPath s = (Return None, s1) ->
  initGodot s
  = (Throw (Error not_found_message),
     mkSt (with_godotPath None (js s)) (world s1)) /\
  forall w q s3,
    findGodotPath (mkSt (with_godotPath None (js s)) w) = (Return (Some q), s3) ->
    initGodot (mkSt (with_godotPath None (js s)) w)
    = (Return q, mkSt (with_godotPath (Some q) (js s)) (world s3)).
Proof.
  intros G F. split.
  - by apply initGodot_not_found.
  - intros w q s3 F3. rewrite initGodot_fresh by reflexivity.
    rewrite resolve_godot_eq, F3.
    destruct (findGodotPath_total (mkSt (with_godotPath None (js s)) w))
      as (r & s' & E & J & _).
    rewrite F3 in E. injection E as <- <-. rewrite J. reflexivity.
Qed.

End GodotPathCache.

(** ** The bridge: failing fast, and what it leaves alone *)

Section BridgeMore.

Context `{Host}.
Import GodotUtils Operations.

Lemma recover_throws (e e' : JsError) (s s' : St) :
  recover e s = (Throw e', s') -> e' = e.
Proof.
  unfold recover. destruct (_ || _); [discriminate | by intros [= <- _]].
Qed.

Lemma runGodotCommand_throws (godotPath : string) (args : list string)
    (cwd : option string) (s s' : St) (e : JsError) :
  runGodotCommand godotPath args cwd s = (Throw e, s') ->
  exists x, e = ExecError x.
Proof.
  rewrite runGodotCommand_eq.
  destruct (execAsync _ _ _) as [[x|r] w]; [| discriminate].
  intros R. apply recover_throws in R. by exists x.
Qed.

(** An error leaving [run_script] comes from the runner or from the
    extractor. *)
Lemma run_script_throws (godotPath scriptPath tmp projectPath : string)
    (s s' : St) (e : JsError) :
  run_script godotPath scriptPath tmp projectPath s = (Throw e, s') ->
  (exists x, e = ExecError x) \/ (exists text, e = parse_failure text).
Proof.
  destruct (runGodotCommand godotPath ["--script"; scriptPath; tmp]
              (Some projectPath) s) as [[r|e0] s4] eqn:E.
  - rewrite (run_script_returned _ _ _ _ _ _ _ E), parse_result_eq.
    intros R. right. exists (stdout r).
    destruct (Regex.brace_match _) as [m|]; [destruct (JSON_parse m) |];
      first [discriminate | by inversion R].
  - rewrite (run_script_raised _ _ _ _ _ _ _ E). intros [= <- _].
    left. by eapply runGodotCommand_throws.
Qed.

(** X4. [runGodotOperation] raises the error [Godot executable not found]
    exactly when the locator finds nothing.  It then stops before anything
    else is done: no script is materialized, no request file is written, no
    command is run, and the state is the one the locator left. *)
Theorem operation_fails_fast_without_executable (projectPath operation : string)
    (params : Obj.t) (s : St) :
  (fst (runGodotOperation projectPath operation params s)
     = Throw (Error "Godot executable not found")
   <-> fst (findGodotPath s) = Return None) /\
  (fst (findGodotPath s) = Return None ->
   snd (runGodotOperation projectPath operation params s) = snd (findGodotPath s)).
Proof.
  destruct (findGodotPath_total s) as (r & s1 & F & _ & T).
  assert (r = None ->
          runGodotOperation projectPath operation params s
          = (Throw (Error "Godot executable not found"), s1)) as Hnone.
  { intros ->. unfold runGodotOperation. unfold bind at 1. by rewrite F. }
  split; [split |].
  - intros R. rewrite F. simpl. destruct r as [g|]; [| reflexivity]. exfalso.
    destruct (initOperationsScript s1) as [[script|e] s2] eqn:I.
    + destruct (decide (temp_json_path (world s2) ∈ denied (world s2))) as [Y|N].
      * revert R. unfold runGodotOperation. unfold bind at 1. rewrite F.
        destruct (T g eq_refl) as [-> _]. simpl.
        unfold bind at 1. rewrite I. unfold bind at 1. unfold gets at 1. simpl.
        unfold bind at 1. unfold Node.writeFileSync.
        destruct Y as [code ->]. discriminate.
      * rewrite (runGodotOperation_eq _ _ _ _ _ _ _ _ F I N) in R.
        destruct (run_script _ _ _ _ _) as [[v|e] s'] eqn:RS; [discriminate |].
        simpl in R. injection R as R'. subst e.
        destruct (run_script_throws _ _ _ _ _ _ _ RS) as [[x X]|[t X]];
          discriminate.
    + revert R. unfold runGodotOperation. unfold bind at 1. rewrite F.
      destruct (T g eq_refl) as [-> _]. simpl.
      unfold bind at 1. rewrite I. simpl. intros [= ->].
      revert I. unfold initOperationsScript, bind, gets. simpl.
      assert (forall s2', create_script s1 <>
                (Throw (Error "Godot executable not found"), s2')) as C.
      { intros s2'. rewrite create_script_eq. simpl.
        destruct (refusal _ _); discriminate. }
      destruct (gdScriptPath (js s1)) as [q|]; [destruct (Str.truthy q) |];
        first [discriminate | apply C].
  - rewrite F. simpl. intros [= ->]. by rewrite (Hnone eq_refl).
  - rewrite F. simpl. intros [= ->]. by rewrite (Hnone eq_refl).
Qed.

(** X5. A bridge operation, whatever its outcome, leaves the session and the
    cached executable path alone: it spawns and kills no child and assigns
    neither [godotProcess] nor [godotPath], so a running project is not
    affected by scene operations. *)
Theorem operation_leaves_session_alone (projectPath operation : string)
    (params : Obj.t) (s : St) :
  let s' := snd (runGodotOperation projectPath operation params s) in
  children (js s') = children (js s) /\
  godotProcess (js s') = godotProcess (js s) /\
  godotPath (js s') = godotPath (js s) /\
  running (js s') = running (js s).
Proof.
  intros s'.
  assert (same_session (js s) (js s')) as [Kc Kg]
    by (apply keeps_runGodotOperation; same_session).
  assert (godotPath (js s') = godotPath (js s)) as Kp.
  { apply (keeps_runGodotOperation (fun j j' => godotPath j' = godotPath j));
      first [by intros | congruence]. }
  repeat split; try done. unfold running. by rewrite Kc.
Qed.

End BridgeMore.

(** ** The extractor and noise around the result *)

Section Noise.

Context `{Host}.
Import Regex Operations.

Lemma brace_match_no_close (s : string) :
  Str.occurs Str.rbrace s = false -> brace_match s = None.
Proof.
  induction s as [|c s IH]; simpl; [reflexivity |].
  destruct (Ascii.eqb c Str.rbrace); simpl; [discriminate |]. intros N.
  rewrite (greedy_close_none _ N).
  destruct (Ascii.eqb c Str.lbrace); simpl; by apply IH.
Qed.

Lemma greedy_close_app_r (t post : string) :
  Str.occurs Str.rbrace post = false ->
  greedy_close (t +:+ post) = greedy_close t.
Proof.
  intros N. induction t as [|c t IH]; str_simpl.
  - by apply greedy_close_none.
  - by rewrite IH.
Qed.

Lemma brace_match_app_r (t post : string) :
  Str.occurs Str.rbrace post = false ->
  brace_match (t +:+ post) = brace_match t.
Proof.
  intros N. induction t as [|c t IH]; str_simpl.
  - by apply brace_match_no_close.
  - rewrite (greedy_close_app_r _ _ N), IH. reflexivity.
Qed.

Lemma brace_match_app_l (pre t : string) :
  Str.occurs Str.lbrace pre = false ->
  brace_match (pre +:+ t) = brace_match t.
Proof.
  intros N. induction pre as [|c pre IH]; str_simpl; [reflexivity |].
  simpl in N. destruct (Ascii.eqb c Str.lbrace); [discriminate |]. by apply IH.
Qed.

(** X6. Text around the output does not change what is extracted, as long
    as what comes before has no opening brace and what comes after has no
    closing brace: the same span is selected, and the extractor returns the
    same value (the banner Godot prints first and log lines printed last
    are harmless under that condition). *)
Theorem extractor_ignores_brace_free_noise (pre text post : string) :
  Str.occurs "{" pre = false ->
  Str.occurs "}" post = false ->
  brace_match (pre +:+ text +:+ post) = brace_match text /\
  forall s v,
    parse_result text s = (Return v, s) ->
    parse_result (pre +:+ text +:+ post) s = (Return v, s).
Proof.
  intros Npre Npost.
  assert (brace_match (pre +:+ text +:+ post) = brace_match text) as E.
  { rewrite (brace_match_app_l _ _ Npre). by apply brace_match_app_r. }
  split; [exact E |]. intros s v. rewrite !parse_result_eq, E.
  destruct (brace_match text) as [m|]; [| discriminate].
  destruct (JSON_parse m); [by intros [= ->] | discriminate].
Qed.

End Noise.

(** ** The request object *)

Section Request.

Import Operations.

Lemma keys_inserted (n : N) (k : string) (v : JSValue) (o : Obj.t) :
  Obj.keys (Obj.insert_index n k v o) ≡ₚ k :: Obj.keys o.
Proof.
  induction o as [|[k0 v0] o IH]; simpl; [reflexivity |].
  destruct (Obj.array_index k0) as [m|]; [destruct (m <? n)%N |]; simpl;
    try reflexivity.
  rewrite IH. apply Permutation_swap.
Qed.

Lemma NoDup_keys_set (k : string) (v : JSValue) (o : Obj.t) :
  NoDup (Obj.keys o) -> NoDup (Obj.keys (Obj.set k v o)).
Proof.
  intros D. unfold Obj.set. destruct (Obj.get k o) eqn:G.
  - by rewrite keys_replace.
  - assert (k ∉ Obj.keys o) as N.
    { intros I. apply get_present in I as [? I]. by rewrite I in G. }
    destruct (Obj.array_index k).
    + rewrite keys_inserted. by apply NoDup_cons.
    + unfold Obj.keys in *. rewrite map_app. simpl.
      apply NoDup_app. split; [done |]. split; [| apply NoDup_singleton].
      by intros x I ->%list_elem_of_singleton.
Qed.

Lemma NoDup_keys_spread (source target : Obj.t) :
  NoDup (Obj.keys target) -> NoDup (Obj.keys (Obj.spread target source)).
Proof.
  unfold Obj.spread. revert target.
  induction source as [|[k v] source IH]; intros target D; simpl; [exact D |].
  apply IH. by apply NoDup_keys_set.
Qed.

(** X7. The request object is a well-formed object (no key twice) that
    always has the keys [operation] and [projectPath], carries every entry
    of [params] with its value, and has no other key. *)
Theorem request_carries_every_param (projectPath operation : string)
    (params : Obj.t) :
  NoDup (Obj.keys params) ->
  NoDup (Obj.keys (operationData projectPath operation params)) /\
  is_Some (Obj.get "operation" (operationData projectPath operation params)) /\
  is_Some (Obj.get "projectPath" (operationData projectPath operation params)) /\
  (forall k v, Obj.get k params = Some v ->
     Obj.get k (operationData projectPath operation params) = Some v) /\
  (forall k, Obj.get k (operationData projectPath operation params) = None <->
     k <> "operation" /\ k <> "projectPath" /\ Obj.get k params = None).
Proof.
  intros D. unfold operationData.
  assert (forall k,
    Obj.get k (Obj.spread [("operation", JString operation);
                           ("projectPath", JString projectPath)] params)
    = match Obj.get k params with
      | Some v => Some v
      | None => if String.eqb k "operation" then Some (JString operation)
                else if String.eqb k "projectPath" then Some (JString projectPath)
                else None
      end) as G.
  { intros k. by rewrite (get_spread _ _ _ D). }
  split; [| split; [| split; [| split]]].
  - apply NoDup_keys_spread. simpl. apply NoDup_cons. split.
    + intros I. apply list_elem_of_singleton in I. discriminate.
    + apply NoDup_singleton.
  - rewrite G. destruct (Obj.get _ params); by eexists.
  - rewrite G. destruct (Obj.get _ params); by eexists.
  - intros k v E. by rewrite G, E.
  - intros k. rewrite G. destruct (Obj.get k params) as [v|].
    + split; [discriminate | by intros (_ & _ & ?)].
    + destruct (String.eqb k "operation") eqn:E1.
      { apply String.eqb_eq in E1 as ->. split; [discriminate | by intros (? & _)]. }
      destruct (String.eqb k "projectPath") eqn:E2.
      { apply String.eqb_eq in E2 as ->. split; [discriminate | by intros (_ & ? & _)]. }
      apply String.eqb_neq in E1, E2. by split.
Qed.

End Request.

(** ** Stopping, and the output buffer *)

Section StopAndBuffer.

Context `{Host}.
Import GodotUtils Commands.

(** X8. [stopProject] is idempotent: after a stop, whether or not something
    was running, a second stop and a peek both answer that nothing is
    running and change nothing. *)
Theorem stop_twice_is_stop_once (s : St) :
  let s1 := snd (stopProject s) in
  handles (js s1) = [] /\
  stopProject s1 = (Return "No Godot project is currently running", s1) /\
  getDebugOutput s1 = (Return "No Godot project is currently running", s1).
Proof.
  intros s1. unfold s1. clear s1. rewrite stopProject_eq. cbn [snd].
  rewrite stopProject_eq, getDebugOutput_eq. cbn [js world].
  unfold handles. rewrite godotProcess_stopped.
  assert (stopped (stopped (js s)) = stopped (js s)) as ->.
  { unfold stopped at 1. by rewrite godotProcess_stopped. }
  by repeat split.
Qed.

(** X9. In every state reached through runs, stops, peeks, version queries,
    bridge operations and pipe events, a run that starts followed by a stop
    leaves no child running and no handle held: the stop reports
    [Stopped running Godot project], every child spawned by a run has been
    killed, and the world is as the run left it. *)
Theorem run_then_stop_leaves_nothing_running (s0 : St) (evs : list Event)
    (projectPath message : string) (s1 : St) :
  js s0 = js_start ->
  runProject projectPath (run_events evs s0) = (Return message, s1) ->
  exists s2,
    stopProject s1 = (Return "Stopped running Godot project", s2) /\
    world s2 = world s1 /\
    running (js s2) = [] /\
    handles (js s2) = [] /\
    forall i c, children (js s2) !! i = Some c -> child_killed c = true.
Proof.
  intros J0 R.
  assert (session_ok (js s1)) as H1.
  { pose proof (step_session_ok (RunProject projectPath) (run_events evs s0)) as S.
    simpl in S. rewrite R in S. apply S.
    apply run_events_session_ok. rewrite J0. apply session_ok_start. }
  assert (is_Some (godotProcess (js s1))) as [pid G].
  { rewrite runProject_eq in R.
    destruct (initGodot _) as [[g|e] sa]; [| discriminate].
    destruct (exists_in _ _); [| discriminate]. injection R as _ <-. by eexists. }
  destruct (session_ok_stopped _ H1) as [[Hk Hp] Hr].
  rewrite stopProject_eq, G. eexists. split; [reflexivity |]. simpl.
  split; [reflexivity |]. split; [exact Hr |].
  split; [unfold handles; by rewrite godotProcess_stopped |].
  intros i c D. destruct (child_killed c) eqn:K; [reflexivity |].
  apply (Hk i c D) in K. by rewrite godotProcess_stopped in K.
Qed.

Lemma join_empty_cons (x : string) (l : list string) :
  Str.join "" (x :: l) = x +:+ Str.join "" l.
Proof. destruct l; simpl; [by rewrite str_app_nil_r | reflexivity]. Qed.

(** X10. The chunks that arrive for a child, on either pipe, are appended to
    its one buffer in the order of arrival, and the record of every other
    child is untouched.  A run that starts begins with an empty buffer. *)
Theorem chunks_accumulate_in_arrival_order (s : St) (pid : nat) (c : Child)
    (chunks : list (Pipe * string)) :
  children (js s) !! pid = Some c ->
  let s' := run_events (map (fun x => Data pid (fst x) (snd x)) chunks) s in
  children (js s') !! pid
  = Some (mkChild (child_file c) (child_args c) (child_killed c)
            (child_output c +:+ Str.join "" (map snd chunks))) /\
  (forall q, q <> pid -> children (js s') !! q = children (js s) !! q) /\
  world s' = world s /\
  forall projectPath message s1,
    runProject projectPath s' = (Return message, s1) ->
    exists new, godotProcess (js s1) = Some new /\
                child_output <$> children (js s1) !! new = Some "".
Proof.
  intros D s'. unfold s'. clear s'.
  revert s c D. induction chunks as [|[pipe chunk] chunks IH]; intros s c D.
  - simpl. rewrite str_app_nil_r. destruct c. repeat split; try done.
    intros projectPath message s1 R. rewrite runProject_eq in R.
    destruct (initGodot s) as [[g|e] sa]; [| discriminate].
    destruct (exists_in _ _); [| discriminate]. injection R as _ <-.
    eexists. split; [reflexivity |]. simpl.
    by rewrite lookup_app_r, Nat.sub_diag.
  - simpl map. rewrite join_empty_cons. simpl.
    destruct (IH (Node.on_data pid pipe chunk s)
                (mkChild (child_file c) (child_args c) (child_killed c)
                   (child_output c +:+ chunk))) as (E & O & W & N).
    { simpl. by rewrite list_lookup_alter_eq, D. }
    simpl in E. rewrite str_app_assoc in E.
    split; [exact E |]. split; [| split; [exact W | exact N]].
    intros q Q. rewrite (O q Q). simpl. by rewrite list_lookup_alter_ne.
Qed.

End StopAndBuffer.

(** ** The editor, and the projects of a directory *)

Section EditorAndProjects.

Context `{Host} {D : Directories}.
Import GodotUtils Commands Projects.

Lemma launchEditor_eq (projectPath : string) (s : St) :
  launchEditor projectPath s =
  match initGodot s with
  | (Return godotPath, s1) =>
      if exists_in (world s1) (path_join projectPath "project.godot")
      then (Return ("Launched Godot editor for project: " +:+ projectPath),
            mkSt (with_children
                    (children (js s1)
                     ++ [mkChild godotPath ["--editor"; "--path"; projectPath] false ""])
                    (js s1)) (world s1))
      else (Throw (Error ("Invalid Godot project path: " +:+ projectPath)), s1)
  | (Throw e, s1) => (Throw e, s1)
  end.
Proof.
  unfold launchEditor. unfold bind at 1.
  destruct (initGodot s) as [[godotPath|e] s1]; [| reflexivity].
  unfold bind at 1. rewrite isGodotProject_eq.
  destruct (exists_in _ _); reflexivity.
Qed.

Lemma editors_safe_start : editors_safe js_start.
Proof. split; [intros i c; destruct i |]; discriminate. Qed.

Lemma editors_safe_same (j j' : Js) :
  same_session j j' -> editors_safe j -> editors_safe j'.
Proof. intros [Hc Hg] [Hk Hp]. unfold editors_safe. rewrite Hc, Hg. by split. Qed.

Lemma editors_safe_stopped (j : Js) :
  editors_safe j -> editors_safe (stopped j).
Proof.
  intros Hj. unfold stopped.
  destruct (godotProcess j) as [pid|] eqn:G; [| exact Hj].
  destruct Hj as [Hk Hp]. split; simpl; [| discriminate].
  intros i c. destruct (decide (i = pid)) as [->|Hne].
  - rewrite list_lookup_alter_eq.
    destruct (Hp pid G) as (d & E & N). rewrite E. simpl.
    intros [= <-] Ed. unfold is_editor in *. simpl in Ed. congruence.
  - rewrite list_lookup_alter_ne by congruence. apply Hk.
Qed.

(** Appending a live child, tracked or not. *)
Lemma editors_safe_spawn (j : Js) (c : Child) (tracked : bool) :
  editors_safe j -> child_killed c = false ->
  (tracked = true -> is_editor c = false) ->
  editors_safe
    (with_godotProcess
       (if tracked then Some (length (children j)) else godotProcess j)
       (with_children (children j ++ [c]) j)).
Proof.
  intros [Hk Hp] K T. split; simpl.
  - intros i d E. destruct (decide (i < length (children j))) as [Hlt|Hge].
    + rewrite lookup_app_l in E by exact Hlt. by apply (Hk i d).
    + rewrite lookup_app_r in E by lia.
      destruct (i - length (children j)); simpl in E; [| done].
      by injection E as <-.
  - intros pid G. destruct tracked.
    + injection G as <-. exists c. rewrite lookup_app_r, Nat.sub_diag by lia.
      split; [reflexivity | by apply T].
    + destruct (Hp pid G) as (d & E & N). exists d. split; [| exact N].
      rewrite lookup_app_l; [exact E | by apply lookup_lt_Some in E].
Qed.

Lemma editors_safe_data (pid : nat) (pipe : Pipe) (chunk : string) (s : St) :
  editors_safe (js s) -> editors_safe (js (Node.on_data pid pipe chunk s)).
Proof.
  intros [Hk Hp]. split; simpl.
  - intros i c. destruct (decide (i = pid)) as [->|Hne].
    + rewrite list_lookup_alter_eq.
      destruct (children (js s) !! pid) as [d|] eqn:E; simpl; [| discriminate].
      intros [= <-]. exact (Hk pid d E).
    + rewrite list_lookup_alter_ne by congruence. apply Hk.
  - intros q G. destruct (Hp q G) as (d & E & N).
    destruct (decide (q = pid)) as [->|Hne].
    + rewrite list_lookup_alter_eq, E. eexists. split; [reflexivity | exact N].
    + rewrite list_lookup_alter_ne by congruence. by exists d.
Qed.

Lemma keeps_mkdir (R : Js -> Js -> Prop) (q : string) :
  (forall j, R j j) -> keeps R (NodeDirs.mkdir q).
Proof.
  intros Rr s. unfold NodeDirs.mkdir. destruct (mkdirSync _ _); apply Rr.
Qed.

Lemma keeps_collect_projects (R : Js -> Js -> Prop) (dir : string)
    (entries : list Dirent) (acc : list string) :
  (forall j, R j j) -> (forall j1 j2 j3, R j1 j2 -> R j2 j3 -> R j1 j3) ->
  keeps R (collect_projects dir entries acc).
Proof.
  intros Rr Rt. revert acc.
  induction entries as [|e rest IH]; intros acc; simpl; [by apply keeps_ret |].
  destruct (dirent_isDirectory e); [| apply IH].
  apply keeps_bind; [exact Rt | by apply keeps_isGodotProject |].
  intros []; apply IH.
Qed.

Lemma keeps_listProjects (R : Js -> Js -> Prop) (dir : string) :
  (forall j, R j j) -> (forall j1 j2 j3, R j1 j2 -> R j2 j3 -> R j1 j3) ->
  keeps R (listProjects dir).
Proof.
  intros Rr Rt.
  apply keeps_try_catch; [exact Rt | | intros; by apply keeps_throw].
  apply keeps_bind; [exact Rt | | intros; by apply keeps_collect_projects].
  intros s. unfold NodeDirs.readdirTyped. destruct (readdir _ _); apply Rr.
Qed.

Lemma keeps_createProject (R : Js -> Js -> Prop) (parent name template : string) :
  (forall j, R j j) -> (forall j1 j2 j3, R j1 j2 -> R j2 j3 -> R j1 j3) ->
  (forall j p, R j (with_godotPath p j)) ->
  keeps R (createProject parent name template).
Proof.
  intros Rr Rt Rg.
  apply keeps_bind; [exact Rt | by apply keeps_initGodot | intros g].
  apply keeps_bind; [exact Rt | by apply keeps_existsSync | intros taken].
  apply keeps_if; [by apply keeps_throw |].
  repeat (apply keeps_bind; [exact Rt | by apply keeps_mkdir | intros _]).
  repeat (apply keeps_bind; [exact Rt | by apply keeps_writeFileSync | intros _]).
  apply keeps_bind; [exact Rt | | intros; by apply keeps_ret].
  apply keeps_if; [by apply keeps_writeFileSync | by apply keeps_ret].
Qed.

Lemma step_call_editors_safe (c : Call) (s : St) :
  editors_safe (js s) -> editors_safe (js (step_call c s)).
Proof.
  intros Hs.
  assert (same_session (js s) (js (snd (initGodot s)))) as Ki
    by (apply keeps_initGodot; same_session).
  destruct c as [e| | |]; simpl.
  - pose proof (keeps_same_session_step e s) as K.
    destruct e; simpl in *; try (eapply editors_safe_same; [exact K | exact Hs]).
    + rewrite runProject_eq.
      destruct (initGodot s) as [[g|e] s1]; simpl in Ki;
        [| exact (editors_safe_same _ _ Ki Hs)].
      pose proof (editors_safe_same _ _ Ki Hs) as H1.
      destruct (exists_in _ _); simpl; [| exact H1].
      exact (editors_safe_spawn _ (mkChild g ["--path"; projectPath] false "")
               true (editors_safe_stopped _ H1) eq_refl (fun _ => eq_refl)).
    + rewrite stopProject_eq. simpl. by apply editors_safe_stopped.
    + exact (editors_safe_data pid pipe chunk s Hs).
  - rewrite launchEditor_eq.
    destruct (initGodot s) as [[g|e] s1]; simpl in Ki;
      [| exact (editors_safe_same _ _ Ki Hs)].
    pose proof (editors_safe_same _ _ Ki Hs) as H1.
    destruct (exists_in _ _); simpl; [| exact H1].
    pose proof (editors_safe_spawn _ (mkChild g ["--editor"; "--path"; projectPath]
                  false "") false H1 eq_refl ltac:(discriminate)) as S.
    by destruct (js s1).
  - eapply editors_safe_same; [| exact Hs].
    apply keeps_listProjects; same_session.
  - eapply editors_safe_same; [| exact Hs].
    apply keeps_createProject; same_session.
Qed.

Lemma run_calls_editors_safe (calls : list Call) (s : St) :
  editors_safe (js s) -> editors_safe (js (run_calls calls s)).
Proof.
  revert s. induction calls as [|c calls IH]; intros s Hs; simpl; [exact Hs |].
  apply IH. by apply step_call_editors_safe.
Qed.

(** X11. An editor started by [launchEditor] is out of the session's reach:
    the call appends one child and leaves [godotProcess] and every earlier
    child as they were (a call that raises appends nothing), and in every
    state the server reaches afterwards, by
    any tool invocations and pipe events, no editor has been killed and
    [godotProcess] never refers to one.  Running or stopping a project never
    stops an editor. *)
Theorem editors_are_never_killed (s0 : St) (calls : list Call) :
  js s0 = js_start ->
  let s := run_calls calls s0 in
  (forall i c, children (js s) !! i = Some c -> is_editor c = true ->
               child_killed c = false) /\
  (forall pid, godotProcess (js s) = Some pid ->
     exists c, children (js s) !! pid = Some c /\ is_editor c = false) /\
  (forall projectPath message s1,
     launchEditor projectPath s = (Return message, s1) ->
     godotProcess (js s1) = godotProcess (js s) /\
     exists godotPath,
       children (js s1)
       = children (js s)
         ++ [mkChild godotPath ["--editor"; "--path"; projectPath] false ""]) /\
  (forall projectPath e s1,
     launchEditor projectPath s = (Throw e, s1) ->
     godotProcess (js s1) = godotProcess (js s) /\
     children (js s1) = children (js s)).
Proof.
  intros J0 s.
  assert (editors_safe (js s)) as [Hk Hp].
  { apply run_calls_editors_safe. rewrite J0. apply editors_safe_start. }
  split; [exact Hk |]. split; [exact Hp |].
  assert (same_session (js s) (js (snd (initGodot s)))) as [Kc Kg]
    by (apply keeps_initGodot; same_session).
  split.
  - intros projectPath message s1 L. rewrite launchEditor_eq in L.
    destruct (initGodot s) as [[g|e] sa]; [| discriminate]. simpl in Kc, Kg.
    destruct (exists_in _ _); [| discriminate]. injection L as _ <-. simpl.
    split; [exact Kg |]. exists g. by rewrite Kc.
  - intros projectPath e s1 L. rewrite launchEditor_eq in L.
    destruct (initGodot s) as [[g|e1] sa]; simpl in Kc, Kg.
    + destruct (exists_in _ _); [discriminate |]. injection L as _ <-. by split.
    + injection L as _ <-. by split.
Qed.


Lemma collect_projects_eq (dir : string) (entries : list Dirent)
    (acc : list string) (s : St) :
  collect_projects dir entries acc s
  = (Return (acc ++ project_dirs (world s) dir entries), s).
Proof.
  revert acc. induction entries as [|e rest IH]; intros acc; simpl.
  - unfold project_dirs. simpl. by rewrite app_nil_r.
  - unfold project_dirs in *. simpl.
    destruct (dirent_isDirectory e); simpl; [| apply IH].
    unfold bind. rewrite isGodotProject_eq.
    destruct (exists_in _ _); rewrite IH; [by rewrite <- app_assoc | reflexivity].
Qed.

(** X12. [listProjects] returns the subdirectories of the directory that
    hold a [project.godot], in the order of the listing, each as the join of
    the directory and the entry name; entries that are not directories are
    never listed, whatever they hold.  When the directory cannot be read the
    error is wrapped.  Nothing is changed either way, and the tool answers
    with the count and the paths, or says that none was found. *)
Theorem listProjects_returns_project_subdirectories (directoryPath : string)
    (s : St) :
  (forall entries,
     readdir directoryPath (world s) = inr entries ->
     listProjects directoryPath s
     = (Return (project_dirs (world s) directoryPath entries), s) /\
     (forall p, p ∈ project_dirs (world s) directoryPath entries <->
        exists e, e ∈ entries /\ dirent_isDirectory e = true /\
                  p = path_join directoryPath (dirent_name e) /\
                  is_Some (fs (world s) !! path_join p "project.godot")) /\
     Tools.list_projects directoryPath s
     = (Return
          (match project_dirs (world s) directoryPath entries with
           | [] => "No Godot projects found in the specified directory"
           | found =>
               "Found " +:+ pretty (length found) +:+ " Godot projects:" +:+ nl
               +:+ Str.join nl found
           end), s)) /\
  (forall e,
     readdir directoryPath (world s) = inl e ->
     listProjects directoryPath s
     = (Throw (Error ("Failed to list Godot projects: " +:+ error_text e)), s)).
Proof.
  split.
  - intros entries E.
    assert (listProjects directoryPath s
            = (Return (project_dirs (world s) directoryPath entries), s)) as L.
    { unfold listProjects, try_catch. unfold bind at 1.
      unfold NodeDirs.readdirTyped. rewrite E. by rewrite collect_projects_eq. }
    split; [exact L |]. split.
    + intros p. unfold project_dirs. rewrite list_elem_of_In, List.filter_In.
      rewrite List.in_map_iff. unfold exists_in. rewrite bool_decide_eq_true.
      split.
      * intros [(e & <- & I) X]. apply List.filter_In in I as [I Y].
        exists e. by rewrite list_elem_of_In.
      * intros (e & I & Y & -> & X). split; [| exact X].
        exists e. split; [reflexivity |]. apply List.filter_In.
        by rewrite <- list_elem_of_In.
    + unfold Tools.list_projects, try_catch. unfold bind at 1. rewrite L.
      by destruct (project_dirs _ _ _).
  - intros e E. unfold listProjects, try_catch. unfold bind at 1.
    unfold NodeDirs.readdirTyped. by rewrite E.
Qed.

Lemma exists_in_put (w : World) (p data q : string) :
  exists_in w q = true ->
  exists_in (with_fs (<[p := data]> (fs w)) w) q = true.
Proof.
  unfold exists_in. rewrite !bool_decide_eq_true. simpl. intros [c E].
  destruct (decide (p = q)) as [->|N].
  - rewrite lookup_insert_eq. by eexists.
  - rewrite lookup_insert_ne by exact N. by eexists.
Qed.

Lemma writeFileSync_returned (p data : string) (s s1 : St) :
  Node.writeFileSync p data s = (Return tt, s1) ->
  js s1 = js s /\ world s1 = with_fs (<[p := data]> (fs (world s))) (world s).
Proof.
  unfold Node.writeFileSync. destruct (refusal _ _); [discriminate |].
  intros [= <-]. by split.
Qed.

Lemma mkdir_returned (q : string) (s s1 : St) :
  NodeDirs.mkdir q s = (Return tt, s1) -> js s1 = js s.
Proof.
  unfold NodeDirs.mkdir. destruct (mkdirSync _ _); [discriminate |].
  by intros [= <-].
Qed.

(** X13. [createProject] gives up before it touches the file system in two
    cases: when [initGodot] raises (no executable is found, although the
    function never runs one), and when something exists at the project path,
    with the error [Directory already exists].  Whatever its outcome, it
    spawns and kills no child and leaves [godotProcess] alone. *)
Theorem createProject_gives_up_early (parent name template : string) (s : St) :
  (forall e s1, initGodot s = (Throw e, s1) ->
     createProject parent name template s = (Throw e, s1)) /\
  (forall godotPath s1,
     initGodot s = (Return godotPath, s1) ->
     is_Some (fs (world s1) !! path_join parent name) ->
     createProject parent name template s
     = (Throw (Error ("Directory already exists: " +:+ path_join parent name)), s1)) /\
  (forall s1, Str.truthy_opt (godotPath (js s)) = false ->
     findGodotPath s = (Return None, s1) ->
     createProject parent name template s
     = (Throw (Error not_found_message),
        mkSt (with_godotPath None (js s)) (world s1))) /\
  children (js (snd (createProject parent name template s))) = children (js s) /\
  godotProcess (js (snd (createProject parent name template s)))
    = godotProcess (js s).
Proof.
  assert (forall e s1, initGodot s = (Throw e, s1) ->
            createProject parent name template s = (Throw e, s1)) as Hinit.
  { intros e s1 I. unfold createProject. unfold bind at 1. by rewrite I. }
  split; [exact Hinit |]. split; [| split].
  - intros g s1 I X. unfold createProject. unfold bind at 1. rewrite I.
    unfold bind at 1. unfold Node.existsSync, gets. cbn [fst snd].
    by rewrite (bool_decide_eq_true_2 _ X).
  - intros s1 G F. apply Hinit. by apply initGodot_not_found.
  - assert (same_session (js s) (js (snd (createProject parent name template s))))
      as [Kc Kg] by (apply keeps_createProject; same_session).
    by split.
Qed.

(** X14. [createProject] returns only if nothing existed at the project
    path, so it never writes into an existing directory.  When it
    returns, the project file exists: the new directory passes
    [isGodotProject], and [runProject] and [launchEditor] accept it at
    once. *)
Theorem created_project_is_a_project (parent name template message : string)
    (s s1 : St) :
  createProject parent name template s = (Return message, s1) ->
  let projectPath := path_join parent name in
  message = "Created new Godot project at: " +:+ projectPath /\
  (exists godotPath sa,
     initGodot s = (Return godotPath, sa) /\
     exists_in (world sa) projectPath = false) /\
  isGodotProject projectPath s1 = (Return true, s1) /\
  fst (runProject projectPath s1)
    = Return ("Running Godot project: " +:+ projectPath) /\
  fst (launchEditor projectPath s1)
    = Return ("Launched Godot editor for project: " +:+ projectPath).
Proof.
  intros C projectPath.
  revert C. unfold createProject. unfold bind at 1.
  destruct (initGodot s) as [[g|e] sa] eqn:I; [| discriminate].
  destruct (initGodot_returned _ _ _ I) as [G T].
  unfold bind at 1. unfold Node.existsSync at 1. unfold gets at 1.
  fold (exists_in (world sa) (path_join parent name)).
  destruct (exists_in (world sa) (path_join parent name)) eqn:X; [discriminate |].
  cbn [fst snd].
  intros C.
  unfold bind at 1 in C.
  destruct (NodeDirs.mkdir _ sa) as [[[]|?] m1] eqn:M1; [| discriminate].
  unfold bind at 1 in C.
  destruct (NodeDirs.mkdir _ m1) as [[[]|?] m2] eqn:M2; [| discriminate].
  unfold bind at 1 in C.
  destruct (NodeDirs.mkdir _ m2) as [[[]|?] m3] eqn:M3; [| discriminate].
  unfold bind at 1 in C.
  destruct (NodeDirs.mkdir _ m3) as [[[]|?] m4] eqn:M4; [| discriminate].
  apply mkdir_returned in M1, M2, M3, M4.
  unfold bind at 1 in C.
  destruct (Node.writeFileSync (path_join (path_join parent name) "project.godot") _ _)
    as [[[]|?] sb] eqn:W1; [| discriminate].
  apply writeFileSync_returned in W1 as [J1 W1].
  unfold bind at 1 in C.
  destruct (Node.writeFileSync (path_join (path_join parent name) "icon.svg") _ _)
    as [[[]|?] sc] eqn:W2; [| discriminate].
  apply writeFileSync_returned in W2 as [J2 W2].
  unfold bind at 1 in C.
  assert (exists_in (world sc) (path_join projectPath "project.godot") = true) as Xc.
  { rewrite W2. apply exists_in_put. rewrite W1. unfold exists_in.
    apply bool_decide_eq_true. simpl. rewrite lookup_insert_eq. by eexists. }
  assert (godotPath (js sc) = Some g) as Gc.
  { by rewrite J2, J1, M4, M3, M2, M1. }
  assert (exists sd, s1 = sd /\ godotPath (js sd) = Some g /\
            exists_in (world sd) (path_join projectPath "project.godot") = true /\
            message = "Created new Godot project at: " +:+ projectPath)
    as (sd & -> & Gd & Xd & Msg).
  { destruct (String.eqb template "3d" || String.eqb template "2d").
    - destruct (Node.writeFileSync _ _ sc) as [[[]|?] sd] eqn:W3; [| discriminate].
      apply writeFileSync_returned in W3 as [J3 W3].
      injection C as <- <-. exists sd. split; [reflexivity |].
      split; [by rewrite J3 |]. split; [| reflexivity].
      rewrite W3. by apply exists_in_put.
    - simpl in C. injection C as <- <-. by exists sc. }
  split; [exact Msg |]. split; [by exists g, sa |].
  split; [by rewrite isGodotProject_eq, Xd |]. split.
  - rewrite runProject_eq, (initGodot_cached _ _ Gd T), Xd. reflexivity.
  - rewrite launchEditor_eq, (initGodot_cached _ _ Gd T), Xd. reflexivity.
Qed.

End EditorAndProjects.

(** ** The tool handlers *)

Section Handlers.

Context `{Host} {D : Directories}.

Lemma caught_returns {A} (body : M A) (render : JsError -> A) (s : St) :
  exists a s', try_catch body (fun error => ret (render error)) s = (Return a, s').
Proof.
  unfold try_catch. destruct (body s) as [[a|e] s']; by eexists _, _.
Qed.

(** X15. No failure leaves a tool handler: whatever the command or the file
    system call raises, the handler of [godot_version], [launch_editor],
    [list_projects], [create_project], [run_project], [stop_project],
    [get_debug_output], [write_file] or [read_file] answers with a text. *)
Theorem handlers_never_raise (s : St) (a b : string) (template : option string) :
  (exists text s', Tools.godot_version s = (Return text, s')) /\
  (exists text s', Tools.launch_editor a s = (Return text, s')) /\
  (exists text s', Tools.list_projects a s = (Return text, s')) /\
  (exists text s', Tools.create_project a b template s = (Return text, s')) /\
  (exists text s', Tools.run_project a s = (Return text, s')) /\
  (exists text s', Tools.stop_project s = (Return text, s')) /\
  (exists text s', Tools.get_debug_output s = (Return text, s')) /\
  (exists text s', Tools.write_file a b s = (Return text, s')) /\
  (exists text s', Tools.read_file a s = (Return text, s')).
Proof. repeat split; apply caught_returns. Qed.


(** On the file tree of the machine: a directory is not overwritten, nothing
    is written below a regular file, and a missing directory is created
    for the file. *)
Example write_file_on_a_tree :
  fst (Tools.write_file (D := demo_directories) "/work/game" "x" work_state)
  = Return "Error writing file: EISDIR: illegal operation on a directory, open '/work/game'" /\
  fst (Tools.write_file (D := demo_directories)
         "/work/game/project.godot/x" "x" work_state)
  = Return "Error writing file: ENOTDIR: not a directory, open '/work/game/project.godot/x'" /\
  (let end_ := Tools.write_file (D := demo_directories)
                 "/work/new/docs/notes.txt" "x" work_state in
   fst end_ = Return "File written successfully: /work/new/docs/notes.txt" /\
   fs (world (snd end_)) !! "/work/new/docs/notes.txt" = Some "x" /\
   is_Some (fs (world (snd end_)) !! "/work/new")).
Proof. vm_compute. repeat split. by eexists. Qed.

End Handlers.

(** ** The further properties on concrete machines *)

Section MoreWitnesses.

Import GodotUtils Operations Commands Projects.

Lemma executable_path_resolved_once_witness :
  let s1 := snd (initGodot (H := host_success) work_state) in
  let later :=
    run_calls (H := host_success) (D := demo_directories)
      [CreateProject "/work" "new" "2d"; Core (RunProject "/work/new");
       LaunchEditor "/work/game"; Core StopProject] s1 in
  initGodot (H := host_success) later = (Return "/opt/godot", later).
Proof.
  intros s1 later.
  apply (executable_path_resolved_once (H := host_success) (D := demo_directories)
           work_state s1 "/opt/godot").
  reflexivity.
Defined.

Lemma missing_executable_is_searched_again_witness :
  let empty := mkWorld ∅ ∅ None "win32" "/tmp" 0 in
  fst (initGodot (H := host_success) (mkSt js_start empty))
  = Throw (Error not_found_message).
Proof.
  intros empty.
  destruct (missing_executable_is_searched_again (H := host_success)
              (mkSt js_start empty) (mkSt js_start empty)) as [E _].
  - reflexivity.
  - reflexivity.
  - by rewrite E.
Defined.

Lemma run_then_stop_witness :
  exists s2,
    stopProject (snd (runProject (H := host_success) "/proj" demo_state))
    = (Return "Stopped running Godot project", s2) /\
    running (js s2) = [].
Proof.
  destruct (run_then_stop_leaves_nothing_running (H := host_success)
              demo_state [] "/proj" "Running Godot project: /proj"
              (snd (runProject (H := host_success) "/proj" demo_state)))
    as (s2 & E & _ & R & _).
  - reflexivity.
  - reflexivity.
  - exists s2. by split.
Defined.

Lemma chunks_accumulate_witness :
  let s := snd (runProject (H := host_success) "/proj" demo_state) in
  child_output <$>
    children (js (run_events (H := host_success)
                    [Data 0 Stdout "a"; Data 0 Stderr "b"; Data 0 Stdout "c"] s)) !! 0
  = Some "abc".
Proof.
  intros s.
  destruct (chunks_accumulate_in_arrival_order (H := host_success) s 0
              (mkChild "/opt/godot" ["--path"; "/proj"] false "")
              [(Stdout, "a"); (Stderr, "b"); (Stdout, "c")]) as (E & _).
  - reflexivity.
  - simpl map in E. by rewrite E.
Defined.

Lemma extractor_ignores_noise_witness :
  Regex.brace_match ("Godot Engine v4.2 " +:+ "{}" +:+ " done")
  = Regex.brace_match "{}".
Proof.
  apply (extractor_ignores_brace_free_noise (H := host_success)
           "Godot Engine v4.2 " "{}" " done"); reflexivity.
Defined.

Lemma request_carries_every_param_witness :
  Obj.get "sceneName"
    (operationData "/proj" "create_scene"
       [("sceneName", JString "Main"); ("nodeType", JString "Node3D")])
  = Some (JString "Main").
Proof.
  refine (proj1 (proj2 (proj2 (proj2 (request_carries_every_param
            "/proj" "create_scene"
            [("sceneName", JString "Main"); ("nodeType", JString "Node3D")] _))))
            "sceneName" (JString "Main") _).
  - decided.
  - reflexivity.
Defined.

Lemma editors_are_never_killed_witness :
  child_killed (mkChild "/opt/godot" ["--editor"; "--path"; "/work/game"] false "")
  = false /\
  children (js (run_calls (H := host_success) (D := demo_directories)
                  [LaunchEditor "/work/game"; Core (RunProject "/work/game");
                   Core (RunProject "/work/game"); Core StopProject] work_state))
    !! 0
  = Some (mkChild "/opt/godot" ["--editor"; "--path"; "/work/game"] false "").
Proof.
  split; [| reflexivity].
  refine (proj1 (editors_are_never_killed (H := host_success)
                   (D := demo_directories) work_state
                   [LaunchEditor "/work/game"; Core (RunProject "/work/game");
                    Core (RunProject "/work/game"); Core StopProject] _)
            0 _ _ _).
  - reflexivity.
  - reflexivity.
  - reflexivity.
Defined.

Lemma created_project_is_a_project_witness :
  let s1 := snd (createProject (H := host_success) (D := demo_directories)
                   "/work" "new" "3d" work_state) in
  fst (runProject (H := host_success) "/work/new" s1)
  = Return "Running Godot project: /work/new".
Proof.
  intros s1.
  refine (proj1 (proj2 (proj2 (proj2 (created_project_is_a_project
            (H := host_success) (D := demo_directories)
            "/work" "new" "3d" "Created new Godot project at: /work/new"
            work_state s1 _))))).
  vm_compute. reflexivity.
Defined.

End MoreWitnesses.
